(** * A shallow embedding of the simple-grafana-table plugin

    Sources: [src/components/Table/index.tsx] (the [Table] component) and
    [src/components/ThresholdsForm.tsx].

    The [Table] component is a class instance whose fields ([state],
    [renderer], [measurer], [scrollToTop]) are mutated by its methods and
    whose methods may throw.  It is modelled as a record [Table] threaded
    through a small state-and-exception monad [M]: a thrown exception keeps
    the mutations done before the throw, as in JavaScript.

    JavaScript object identity ([data !== prevProps.data]) is modelled by
    [Ref]: a value paired with the identity of the object holding it. *)

From Stdlib Require Import String Ascii ZArith QArith Qminmax Sorted Permutation.
From stdpp Require Import base list gmap.

Open Scope string_scope.

(* ------------------------------------------------------------------ *)
(** ** Exceptions and the component monad *)

(** Exceptions that can escape the modelled code. *)
Inductive exn :=
| SyntaxError                 (** thrown by [new RegExp] on a malformed source *)
| InvalidRegexError           (** the [Error] thrown by [stringToJsRegex] *)
| TypeError.                  (** reading a property of [undefined] *)

(** The completion of a JavaScript computation: a value or a throw. *)
Inductive outcome (A : Type) :=
| Ok (a : A)
| Throw (e : exn).
Arguments Ok {A} a.
Arguments Throw {A} e.

Definition obind {A B} (o : outcome A) (k : A -> outcome B) : outcome B :=
  match o with Ok a => k a | Throw e => Throw e end.

Notation "x <-? c ; k" := (obind c (fun x => k))
  (at level 60, c at next level, right associativity).

(** [Array.prototype.map] with a callback that may throw: the first throw,
    in index order, escapes. *)
Fixpoint omap {A B} (f : A -> outcome B) (l : list A) : outcome (list B) :=
  match l with
  | [] => Ok []
  | x :: l' => y <-? f x; ys <-? omap f l'; Ok (y :: ys)
  end.

(** A JavaScript reference: [ref_id] is the object identity compared by
    [===]; [deref] is the (immutable) object it points to. *)
Record Ref (A : Type) := mkRef { ref_id : nat; deref : A }.
Arguments mkRef {A} _ _.
Arguments ref_id {A} _.
Arguments deref {A} _.

(* ------------------------------------------------------------------ *)
(** ** Regular expressions (the JavaScript [RegExp] built-in)

    The Table code uses three operations of the JavaScript engine:
    [new RegExp(source, flags)] (throws [SyntaxError] on a malformed
    source), [str.match(re)] (used only for its truthiness) and
    [str.replace(re, replacement)].  They form the interface below; the
    component is defined over any engine, and a concrete engine for a
    subset of the pattern syntax is given further down. *)
Class RegExpEngine := {
  RegExp : Type;
  new_RegExp : string -> string -> option RegExp;
  re_test : RegExp -> string -> bool;
  str_replace : string -> RegExp -> string -> string
}.

(** The line terminators of the ASCII range ([.] does not match them). *)
Definition is_line_terminator (c : ascii) : bool :=
  (Ascii.eqb c "010"%char || Ascii.eqb c "013"%char)%bool.

(** Does [s] match [g?i?m?y?] entirely? *)
Definition valid_flags (s : string) : bool :=
  let strip (c : ascii) (s : string) :=
    match s with String c' r => if Ascii.eqb c c' then r else s | _ => s end in
  String.eqb (strip "y"%char (strip "m"%char (strip "i"%char (strip "g"%char s)))) "".

(** [str.match(/^\/(.*?)\/(g?i?m?y?)$/)] on the text after the leading
    slash: the lazy [.*?] takes the shortest body after which a slash and a
    valid flag string end the input. *)
Fixpoint split_slash (body rest : string) : option (string * string) :=
  match rest with
  | EmptyString => None
  | String c r =>
      if (Ascii.eqb c "/"%char && valid_flags r)%bool then Some (body, r)
      else if is_line_terminator c then None
      else split_slash (body ++ String c EmptyString) r
  end.

Section Table.
Context {E : RegExpEngine}.

(** [stringToJsRegex] of [@grafana/data]:
<<
  if (str[0] !== '/') { return new RegExp('^' + str + '$'); }
  const match = str.match(new RegExp('^/(.*?)/(g?i?m?y?)$'));
  if (!match) { throw new Error(`'${str}' is not a valid regular expression.`); }
  return new RegExp(match[1], match[2]);
>> *)
Definition stringToJsRegex (str : string) : outcome RegExp :=
  let compile src flags :=
    match new_RegExp src flags with Some r => Ok r | None => Throw SyntaxError end in
  match str with
  | String "/"%char rest =>
      match split_slash "" rest with
      | None => Throw InvalidRegexError
      | Some (src, flags) => compile src flags
      end
  | _ => compile ("^" ++ str ++ "$") ""
  end.


(* ------------------------------------------------------------------ *)
(** ** Data model *)

(** A field (column) of a [DataFrame]: its name, its configuration (opaque
    here: only handed to the cell builders) and its values. *)
Record Field := mkField { name : string; config : nat; values : list Z }.

(** A [DataFrame]: [fields] and the row count [data.length]. *)
Record DataFrame := mkDataFrame { fields : list Field; frame_length : nat }.

(** A [ColumnStyle] rule.  An empty [alias] is falsy in [if (s.alias)].
    [style_id] stands for the rest of the style, opaque to the Table. *)
Record ColumnStyle := mkColumnStyle { pattern : string; alias : string; style_id : nat }.

Inductive SortDirectionType := ASC | DESC.

Definition SortDirectionType_eqb (a b : SortDirectionType) : bool :=
  match a, b with ASC, ASC | DESC, DESC => true | _, _ => false end.

(** [interface Props]; the theme is not modelled. *)
Record Props := mkProps {
  data : Ref DataFrame;
  minColumnWidth : Q;
  showHeader : bool;
  fixedHeader : bool;
  fixedColumns : Z;
  styles : Ref (list ColumnStyle);
  width : Q;
  height : Q
}.

(** [interface State].  [sortBy] is [undefined] initially and [null] after a
    cleared sort; both are [None] here: they compare unequal to every column
    index, and [sortBy] never goes from [null] back to [undefined]. *)
Record State := mkState {
  sortBy : option Z;
  sortDirection : option SortDirectionType;
  state_data : DataFrame
}.

(** The cell builders live in [./TableCellBuilder], outside the modelled
    files: a builder is represented by the arguments [getCellBuilder] was
    applied to, or is the default [simpleCellBuilder]. *)
Inductive TableCellBuilder :=
| getCellBuilder (cfg : nat) (style : option ColumnStyle)
| simpleCellBuilder.

(** [interface ColumnRenderInfo { header; width; builder }]. *)
Record ColumnRenderInfo := mkColumnRenderInfo {
  header : string;
  column_width : Q;
  builder : TableCellBuilder
}.

(** [interface DataIndex { column; row }]: row -1 is the header. *)
Record DataIndex := mkDataIndex { column : Z; row : Z }.

(** The [CellMeasurerCache]: measured cell heights by grid position
    (rowIndex, columnIndex); [clearAll] empties it. *)
Abbreviation CellMeasurerCache := (gmap (nat * nat) Q).

(** An instance of [class Table]. *)
Record Table := mkTable {
  props : Props;
  state : State;
  renderer : list ColumnRenderInfo;
  measurer : CellMeasurerCache;
  scrollToTop : bool;
  pendingState : option State   (** the state queued by [this.setState] *)
}.

(* ------------------------------------------------------------------ *)
(** ** The state-and-exception monad of the component's methods *)

Definition M (A : Type) := Table -> outcome A * Table.

Definition ret {A} (a : A) : M A := fun t => (Ok a, t).
Definition bind {A B} (m : M A) (k : A -> M B) : M B :=
  fun t => match m t with
           | (Ok a, t') => k a t'
           | (Throw e, t') => (Throw e, t')
           end.
Definition get : M Table := fun t => (Ok t, t).
Definition modify (f : Table -> Table) : M unit := fun t => (Ok tt, f t).
Definition lift {A} (o : outcome A) : M A := fun t => (o, t).

Notation "'let*' x := c 'in' k" := (bind c (fun x => k))
  (at level 200, x name, c at level 100, k at level 200).

Definition set_props (p : Props) (t : Table) : Table :=
  mkTable p (state t) (renderer t) (measurer t) (scrollToTop t) (pendingState t).
Definition set_state (s : State) (t : Table) : Table :=
  mkTable (props t) s (renderer t) (measurer t) (scrollToTop t) (pendingState t).
Definition set_renderer (r : list ColumnRenderInfo) (t : Table) : Table :=
  mkTable (props t) (state t) r (measurer t) (scrollToTop t) (pendingState t).
Definition set_measurer (m : CellMeasurerCache) (t : Table) : Table :=
  mkTable (props t) (state t) (renderer t) m (scrollToTop t) (pendingState t).
Definition set_scrollToTop (b : bool) (t : Table) : Table :=
  mkTable (props t) (state t) (renderer t) (measurer t) b (pendingState t).
Definition set_pending (p : option State) (t : Table) : Table :=
  mkTable (props t) (state t) (renderer t) (measurer t) (scrollToTop t) p.

(** [this.measurer.clearAll()]. *)
Definition clearAll : M unit := modify (set_measurer ∅).

(** [CellMeasurerCache.set]: the write a [CellMeasurer] does after it has
    measured the cell at (rowIndex, columnIndex). *)
Definition measurerSet (rowIndex columnIndex : nat) (h : Q) : M unit :=
  modify (fun t => set_measurer (<[(rowIndex, columnIndex) := h]> (measurer t)) t).

(** [this.setState(...)]: the partial state is merged into the pending
    state (or the current one), to be applied before the next render. *)
Definition setState (f : State -> State) : M unit :=
  modify (fun t =>
    let base := match pendingState t with Some s => s | None => state t end in
    set_pending (Some (f base)) t).

(* ------------------------------------------------------------------ *)
(** ** Column layout: [initColumns] *)

(** The style loop of [initColumns]: the first rule whose pattern matches
    the title wins; with a (truthy) alias the title becomes
    [title.replace(regex, s.alias)].  [stringToJsRegex] may throw.
<<
  for (let i = 0; i < styles.length; i++) {
    const s = styles[i];
    const regex = stringToJsRegex(s.pattern);
    if (title.match(regex)) {
      style = s;
      if (s.alias) { title = title.replace(regex, s.alias); }
      break;
    }
  }
>> *)
Fixpoint find_style (title : string) (ss : list ColumnStyle)
  : outcome (string * option ColumnStyle) :=
  match ss with
  | [] => Ok (title, None)
  | s :: ss' =>
      regex <-? stringToJsRegex (pattern s);
      if re_test regex title then
        Ok (if String.eqb (alias s) "" then title else str_replace title regex (alias s),
            Some s)
      else find_style title ss'
  end.

(** [initColumns(props)].  The [!data], [!data.fields] and [!styles]
    guards cannot fire on well-typed props; [!data.fields.length] is the
    empty-fields case. *)
Definition initColumns (p : Props) : outcome (list ColumnRenderInfo) :=
  let fs := fields (deref (data p)) in
  match fs with
  | [] => Ok []
  | _ :: _ =>
      let columnWidth :=
        Qmax (width p / inject_Z (Z.of_nat (length fs))) (minColumnWidth p) in
      omap (fun col =>
              ts <-? find_style (name col) (deref (styles p));
              Ok (mkColumnRenderInfo ts.1 columnWidth (getCellBuilder (config col) ts.2)))
           fs
  end.

(* ------------------------------------------------------------------ *)
(** ** [sortDataFrame] of [@grafana/data]

<<
  const field = data.fields[sortIndex!];
  if (!field) { return data; }
  const index = [0, ..., data.length - 1];
  index.sort(fieldIndexComparer(field, reverse));
  return { ...data, fields: data.fields.map(f => ({ ...f, values: new SortedVector(f.values, index) })) };
>>
    [Array.prototype.sort] is stable; the comparer orders the row indices
    by the field's values, descending when [reverse]. *)
Definition lookupZ {A} (l : list A) (i : Z) : option A :=
  if (i <? 0)%Z then None else l !! Z.to_nat i.

Fixpoint insert_by (lt : nat -> nat -> bool) (x : nat) (l : list nat) : list nat :=
  match l with
  | [] => [x]
  | y :: l' => if lt x y then x :: y :: l' else y :: insert_by lt x l'
  end.

Definition sort_indices (lt : nat -> nat -> bool) (l : list nat) : list nat :=
  fold_left (fun acc x => insert_by lt x acc) l [].

Definition sortDataFrame (d : DataFrame) (sortIndex : option Z) (reverse : bool)
  : DataFrame :=
  match sortIndex with
  | None => d
  | Some i =>
      match lookupZ (fields d) i with
      | None => d
      | Some field =>
          let v j := nth j (values field) 0%Z in
          let lt a b := if reverse then (v b <? v a)%Z else (v a <? v b)%Z in
          let index := sort_indices lt (seq 0 (frame_length d)) in
          mkDataFrame
            (map (fun f => mkField (name f) (config f)
                                   (map (fun j => nth j (values f) 0%Z) index))
                 (fields d))
            (frame_length d)
      end
  end.

(* ------------------------------------------------------------------ *)
(** ** The update coordinator: [componentDidUpdate] *)

Definition opt_eqb {A} (eqb : A -> A -> bool) (x y : option A) : bool :=
  match x, y with
  | Some a, Some b => eqb a b
  | None, None => true
  | _, _ => false
  end.

Definition dataChanged (p prevProps : Props) : bool :=
  negb (Nat.eqb (ref_id (data p)) (ref_id (data prevProps))).

Definition configsChanged (p prevProps : Props) : bool :=
  (negb (Bool.eqb (showHeader p) (showHeader prevProps))
   || negb (Z.eqb (fixedColumns p) (fixedColumns prevProps))
   || negb (Bool.eqb (fixedHeader p) (fixedHeader prevProps)))%bool.

Definition stylesChanged (p prevProps : Props) : bool :=
  negb (Nat.eqb (ref_id (styles p)) (ref_id (styles prevProps))).

Definition sortChanged (s prevState : State) : bool :=
  (negb (opt_eqb Z.eqb (sortBy s) (sortBy prevState))
   || negb (opt_eqb SortDirectionType_eqb (sortDirection s) (sortDirection prevState)))%bool.

Definition isDESC (d : option SortDirectionType) : bool :=
  match d with Some DESC => true | _ => false end.

(** [componentDidUpdate(prevProps, prevState)]. *)
Definition componentDidUpdate (prevProps : Props) (prevState : State) : M unit :=
  let* t := get in
  let p := props t in
  let s := state t in
  let dChanged := dataChanged p prevProps in
  let* _ := (if (dChanged || configsChanged p prevProps)%bool then clearAll else ret tt) in
  let* _ := (if (dChanged || stylesChanged p prevProps)%bool
             then let* r := lift (initColumns p) in modify (set_renderer r)
             else ret tt) in
  if (dChanged || sortChanged s prevState)%bool then
    let* _ := modify (set_scrollToTop true) in
    setState (fun st => mkState (sortBy st) (sortDirection st)
                                (sortDataFrame (deref (data p)) (sortBy s)
                                               (isDESC (sortDirection s))))
  else ret tt.

(* ------------------------------------------------------------------ *)
(** ** Sorting, coordinates and cells *)

(** [doSort(columnIndex)]:
<<
  let sort: any = this.state.sortBy;
  let dir = this.state.sortDirection;
  if (sort !== columnIndex) { dir = 'DESC'; sort = columnIndex; }
  else if (dir === 'DESC') { dir = 'ASC'; }
  else { sort = null; }
  this.setState({ sortBy: sort, sortDirection: dir });
>> *)
Definition doSort (columnIndex : Z) : M unit :=
  let* t := get in
  let sort := sortBy (state t) in
  let dir := sortDirection (state t) in
  let '(sort', dir') :=
    if negb (opt_eqb Z.eqb sort (Some columnIndex)) then (Some columnIndex, Some DESC)
    else if isDESC dir then (sort, Some ASC)
    else (None, dir) in
  setState (fun st => mkState sort' dir' (state_data st)).

(** [getCellRef(rowIndex, columnIndex)]: grid to DataFrame coordinates. *)
Definition getCellRef (t : Table) (rowIndex columnIndex : Z) : DataIndex :=
  let rowOffset := if showHeader (props t) then (-1)%Z else 0%Z in
  mkDataIndex columnIndex (rowIndex + rowOffset).

(** [onCellClick(rowIndex, columnIndex)]. *)
Definition onCellClick (rowIndex columnIndex : Z) : M unit :=
  let* t := get in
  let ref := getCellRef t rowIndex columnIndex in
  if (row ref <? 0)%Z then doSort (column ref) else ret tt.

(** The content of a header cell: its text and, when present, the
    [SortIndicator] with the direction it is given. *)
Record HeaderCell := mkHeaderCell {
  header_text : string;
  sort_indicator : option (option SortDirectionType)
}.

(** [headerBuilder(cell)]:
<<
  const { data, sortBy, sortDirection } = this.state;
  const { column } = this.getCellRef(rowIndex, columnIndex);
  let col = data.fields[column];
  const sorting = sortBy === column;
  return (<div ...>{col.name}{sorting && <SortIndicator sortDirection={sortDirection} />}</div>);
>> *)
Definition headerBuilder (rowIndex columnIndex : Z) : M HeaderCell :=
  let* t := get in
  let st := state t in
  let ref := getCellRef t rowIndex columnIndex in
  match lookupZ (fields (state_data st)) (column ref) with
  | None => lift (Throw TypeError)
  | Some col =>
      let sorting := opt_eqb Z.eqb (sortBy st) (Some (column ref)) in
      ret (mkHeaderCell (name col) (if sorting then Some (sortDirection st) else None))
  end.

(** [getTableCellBuilder(column)]. *)
Definition getTableCellBuilder (t : Table) (col : Z) : TableCellBuilder :=
  match lookupZ (renderer t) col with
  | Some render => builder render
  | None => simpleCellBuilder
  end.

(** What [cellRenderer] hands to [CellMeasurer]: a header cell, or a data
    cell's builder applied to its value ([None] is [undefined]). *)
Inductive Cell :=
| HeaderCellOut (h : HeaderCell)
| DataCellOut (b : TableCellBuilder) (value : option Z).

(** [cellRenderer(props)]. *)
Definition cellRenderer (rowIndex columnIndex : Z) : M Cell :=
  let* t := get in
  let ref := getCellRef t rowIndex columnIndex in
  let d := state_data (state t) in
  if (row ref <? 0)%Z then
    let* h := headerBuilder rowIndex columnIndex in ret (HeaderCellOut h)
  else
    match lookupZ (fields d) (column ref) with
    | None => lift (Throw TypeError)
    | Some f => ret (DataCellOut (getTableCellBuilder t (column ref)) (lookupZ (values f) (row ref)))
    end.

(** [getColumnWidth({index})]: [this.renderer[index].width]. *)
Definition getColumnWidth (index : Z) : M Q :=
  let* t := get in
  match lookupZ (renderer t) index with
  | Some r => ret (column_width r)
  | None => lift (Throw TypeError)
  end.

(* ------------------------------------------------------------------ *)
(** ** [render] *)

(** The props [render] passes to [MultiGrid] (callbacks left out). *)
Record GridProps := mkGridProps {
  scrollToRow : Z;
  scrollToColumn : Z;
  columnCount : Z;
  rowCount : Z;
  fixedColumnCount : Z;
  fixedRowCount : Z
}.

Inductive Output :=
| MissingFields                 (** [<span>Missing Fields</span>] *)
| MultiGrid (g : GridProps).

(** [render()]. *)
Definition render : M Output :=
  let* t := get in
  let p := props t in
  let d := state_data (state t) in
  match fields d with
  | [] => ret MissingFields
  | _ :: _ =>
      let columnCount := Z.of_nat (length (fields d)) in
      let rowCount := (Z.of_nat (frame_length d) + if showHeader p then 1 else 0)%Z in
      let fixedColumnCount := Z.min (fixedColumns p) columnCount in
      let fixedRowCount := if (showHeader p && fixedHeader p)%bool then 1%Z else 0%Z in
      let scrollToRow := if scrollToTop t then 1%Z else (-1)%Z in
      let* _ := (if scrollToTop t then modify (set_scrollToTop false) else ret tt) in
      ret (MultiGrid (mkGridProps scrollToRow (-1) columnCount rowCount
                                  fixedColumnCount fixedRowCount))
  end.

(* ------------------------------------------------------------------ *)
(** ** The React lifecycle around the component *)

(** [constructor(props)]. *)
Definition constructor (p : Props) : outcome Table :=
  r <-? initColumns p;
  Ok (mkTable p (mkState None None (deref (data p))) r ∅ false None).

(** React applies a queued state, renders and calls [componentDidUpdate]
    with the previous state, until no [setState] is queued ([fuel] bounds
    the rounds).  The outputs of the renders are returned in order. *)
Fixpoint flush (fuel : nat) : M (list Output) :=
  match fuel with
  | O => ret []
  | S fuel' =>
      let* t := get in
      match pendingState t with
      | None => ret []
      | Some s' =>
          let* _ := modify (fun t => set_pending None (set_state s' t)) in
          let* out := render in
          let* _ := componentDidUpdate (props t) (state t) in
          let* outs := flush fuel' in
          ret (out :: outs)
      end
  end.

(** The parent re-renders the Table with new props. *)
Definition receiveProps (p : Props) (fuel : nat) : M (list Output) :=
  let* t := get in
  let* _ := modify (set_props p) in
  let* out := render in
  let* _ := componentDidUpdate (props t) (state t) in
  let* outs := flush fuel in
  ret (out :: outs).


End Table.

(* ------------------------------------------------------------------ *)
(** ** A concrete [RegExp] engine for a subset of the pattern syntax

    Supported: literal characters, [.], [^], [$], groups [( )],
    alternation [|], the quantifiers [*], [+], [?] (greedy, or lazy when
    followed by [?]) and [\c] for a literal [c].  [new RegExp] reports the
    JavaScript syntax errors of this subset: an unterminated group, an
    unmatched [)], a quantifier with nothing to repeat ([*] first, after
    [(] or [|], after an assertion, or after another quantifier) and a
    trailing backslash.  The flag [i] is honoured; [g], [m] and [y] are
    accepted but their effect on matching is not modelled.  Strings are
    sequences of code units below 256. *)
Module SubsetRegExp.

Inductive re :=
| RChr (c : ascii)
| RAny
| RBol
| REol
| REps
| RCat (a b : re)
| RAlt (a b : re)
| RStar (greedy : bool) (a : re).

Definition is_quantifier (c : ascii) : bool :=
  (Ascii.eqb c "*"%char || Ascii.eqb c "+"%char || Ascii.eqb c "?"%char)%bool.

(** The quantifier, if any, that follows an atom. *)
Definition quantify (a : re) (s : list ascii) : option (re * list ascii) :=
  let build (q : ascii) (greedy : bool) :=
    if Ascii.eqb q "*"%char then RStar greedy a
    else if Ascii.eqb q "+"%char then RCat a (RStar greedy a)
    else if greedy then RAlt a REps else RAlt REps a in
  match s with
  | q :: "?"%char :: rest =>
      if is_quantifier q then
        match rest with
        | q' :: _ => if is_quantifier q' then None else Some (build q false, rest)
        | [] => Some (build q false, rest)
        end
      else Some (a, s)
  | q :: rest =>
      if is_quantifier q then
        match rest with
        | q' :: _ => if is_quantifier q' then None else Some (build q true, rest)
        | [] => Some (build q true, rest)
        end
      else Some (a, s)
  | [] => Some (a, s)
  end.

Fixpoint parse_alt (fuel : nat) (s : list ascii) : option (re * list ascii) :=
  match fuel with
  | O => None
  | S f =>
      match parse_seq f s with
      | Some (r, "|"%char :: rest) =>
          match parse_alt f rest with
          | Some (r2, rest') => Some (RAlt r r2, rest')
          | None => None
          end
      | res => res
      end
  end
with parse_seq (fuel : nat) (s : list ascii) : option (re * list ascii) :=
  match fuel with
  | O => None
  | S f =>
      match s with
      | [] => Some (REps, [])
      | c :: _ =>
          if (Ascii.eqb c ")"%char || Ascii.eqb c "|"%char)%bool then Some (REps, s)
          else match parse_atom f s with
               | Some (a, rest) =>
                   match parse_seq f rest with
                   | Some (r, rest') => Some (RCat a r, rest')
                   | None => None
                   end
               | None => None
               end
      end
  end
with parse_atom (fuel : nat) (s : list ascii) : option (re * list ascii) :=
  match fuel with
  | O => None
  | S f =>
      match s with
      | "("%char :: rest =>
          match parse_alt f rest with
          | Some (r, ")"%char :: rest') => quantify r rest'
          | _ => None
          end
      | "^"%char :: rest =>
          match rest with
          | q :: _ => if is_quantifier q then None else Some (RBol, rest)
          | [] => Some (RBol, rest)
          end
      | "$"%char :: rest =>
          match rest with
          | q :: _ => if is_quantifier q then None else Some (REol, rest)
          | [] => Some (REol, rest)
          end
      | "\"%char :: c :: rest => quantify (RChr c) rest
      | "\"%char :: [] => None
      | "."%char :: rest => quantify RAny rest
      | c :: rest => if is_quantifier c then None else quantify (RChr c) rest
      | [] => None
      end
  end.

(** The whole source must be consumed: a left-over [)] is unmatched. *)
Definition parse (src : string) : option re :=
  let s := list_ascii_of_string src in
  match parse_alt (S (length s) * 3) s with
  | Some (r, []) => Some r
  | _ => None
  end.

Fixpoint re_size (r : re) : nat :=
  match r with
  | RCat a b | RAlt a b => S (re_size a + re_size b)
  | RStar _ a => S (re_size a)
  | _ => 1
  end.

Definition lower (c : ascii) : ascii :=
  let n := nat_of_ascii c in
  if ((65 <=? n) && (n <=? 90))%nat then ascii_of_nat (n + 32) else c.

Definition char_eq (ic : bool) (c c' : ascii) : bool :=
  if ic then Ascii.eqb (lower c) (lower c') else Ascii.eqb c c'.

(** The end positions of the matches of [r] starting at [i], in the
    backtracking order of the engine. *)
Fixpoint ends (fuel : nat) (ic : bool) (s : list ascii) (r : re) (i : nat) : list nat :=
  match fuel with
  | O => []
  | S f =>
      match r with
      | RChr c => match s !! i with Some c' => if char_eq ic c c' then [S i] else [] | None => [] end
      | RAny => match s !! i with Some c' => if is_line_terminator c' then [] else [S i] | None => [] end
      | RBol => if Nat.eqb i 0 then [i] else []
      | REol => if Nat.eqb i (length s) then [i] else []
      | REps => [i]
      | RCat a b => flat_map (ends f ic s b) (ends f ic s a i)
      | RAlt a b => ends f ic s a i ++ ends f ic s b i
      | RStar g a =>
          let more := flat_map (fun j => if (i <? j)%nat then ends f ic s (RStar g a) j else [])
                               (ends f ic s a i) in
          if g then more ++ [i] else i :: more
      end
  end.

Record compiled := mkCompiled { c_re : re; c_ignoreCase : bool }.

(** The first match: the leftmost start position with a match, and the
    first end position of that match. *)
Definition exec (r : compiled) (str : string) : option (nat * nat) :=
  let s := list_ascii_of_string str in
  let fuel := S (re_size (c_re r)) * S (S (length s)) in
  let fix go (k : nat) (todo : nat) : option (nat * nat) :=
    match ends fuel (c_ignoreCase r) s (c_re r) k with
    | e :: _ => Some (k, e)
    | [] => match todo with O => None | S todo' => go (S k) todo' end
    end in
  go 0 (length s).

(** [GetSubstitution] for [$$], [$&], [$`] and [$']. *)
Fixpoint substitute (repl matched before after : list ascii) : list ascii :=
  match repl with
  | "$"%char :: "$"%char :: r => "$"%char :: substitute r matched before after
  | "$"%char :: "&"%char :: r => matched ++ substitute r matched before after
  | "$"%char :: "`"%char :: r => before ++ substitute r matched before after
  | "$"%char :: "'"%char :: r => after ++ substitute r matched before after
  | c :: r => c :: substitute r matched before after
  | [] => []
  end.

Definition replace (str : string) (r : compiled) (repl : string) : string :=
  match exec r str with
  | None => str
  | Some (k, e) =>
      let s := list_ascii_of_string str in
      let before := take k s in
      let matched := take (e - k) (drop k s) in
      let after := drop e s in
      string_of_list_ascii
        (before ++ substitute (list_ascii_of_string repl) matched before after ++ after)
  end.

(** Flags: each of [dgimsuvy] at most once. *)
Fixpoint flags_ok (seen : list ascii) (fl : list ascii) : bool :=
  match fl with
  | [] => true
  | c :: r =>
      (existsb (Ascii.eqb c) (list_ascii_of_string "dgimsuvy")
       && negb (existsb (Ascii.eqb c) seen) && flags_ok (c :: seen) r)%bool
  end.

Definition new_RegExp (src flags : string) : option compiled :=
  let fl := list_ascii_of_string flags in
  if flags_ok [] fl then
    match parse src with
    | Some r => Some (mkCompiled r (existsb (Ascii.eqb "i"%char) fl))
    | None => None
    end
  else None.

#[export] Instance engine : RegExpEngine := {
  RegExp := compiled;
  new_RegExp := new_RegExp;
  re_test r s := match exec r s with Some _ => true | None => false end;
  str_replace := replace
}.

End SubsetRegExp.

(* ------------------------------------------------------------------ *)
(** ** [ThresholdsForm]: the thresholds text field

    Strings are sequences of UTF-16 code units below 256. *)
Module ThresholdsForm.

(** [interface Props] without the callback: [handleThresholdChange]
    returns the argument it passes to [this.props.onChange]. *)
Record Props := mkProps {
  thresholds : option (list Z);
  colors : option (list string)
}.

(** The argument of [onChange]: [{ thresholds: number[]; colors: string[] }]. *)
Record Change := mkChange {
  change_thresholds : list Z;
  change_colors : list string
}.

(** [str.split(sep)] for a one-character separator. *)
Fixpoint split (sep : ascii) (s : string) : list string :=
  match s with
  | EmptyString => [EmptyString]
  | String c r =>
      if Ascii.eqb c sep then EmptyString :: split sep r
      else match split sep r with
           | seg :: segs => String c seg :: segs
           | [] => [String c EmptyString]
           end
  end.

(** The JavaScript white space and line terminators below 256: TAB, LF,
    VT, FF, CR, SPACE and NO-BREAK SPACE. *)
Definition is_js_space (c : ascii) : bool :=
  let n := nat_of_ascii c in
  (((9 <=? n) && (n <=? 13)) || Nat.eqb n 32 || Nat.eqb n 160)%nat.

Fixpoint trim_start (s : string) : string :=
  match s with
  | String c r => if is_js_space c then trim_start r else s
  | EmptyString => s
  end.

Definition string_rev (s : string) : string :=
  string_of_list_ascii (rev (list_ascii_of_string s)).

(** [String.prototype.trim]. *)
Definition trim (s : string) : string :=
  string_rev (trim_start (string_rev (trim_start s))).

Definition digit_value (c : ascii) : option Z :=
  let n := nat_of_ascii c in
  if ((48 <=? n) && (n <=? 57))%nat then Some (Z.of_nat (n - 48)) else None.

(** The longest prefix of decimal digits, as (value, digit count). *)
Fixpoint digits (acc : Z) (count : nat) (s : string) : Z * nat :=
  match s with
  | String c r =>
      match digit_value c with
      | Some d => digits (acc * 10 + d)%Z (S count) r
      | None => (acc, count)
      end
  | EmptyString => (acc, count)
  end.

(** [parseInt(s, 10)]: leading white space, an optional sign, then the
    longest run of decimal digits; [None] is [NaN] (no digit).  The value
    is exact ([-0] is [0]; doubles above 2^53 round, not modelled). *)
Definition parseInt10 (s : string) : option Z :=
  let s := trim_start s in
  let '(sign, body) :=
    match s with
    | String "-"%char r => ((-1)%Z, r)
    | String "+"%char r => (1%Z, r)
    | _ => (1%Z, s)
    end in
  let '(v, n) := digits 0 0 body in
  if Nat.eqb n 0 then None else Some (sign * v)%Z.

(** [handleThresholdChange]:
<<
  const splitted = value.split(',');
  const thresholds = [] as number[];
  for (let i = 0; i < splitted.length; i++) {
    let num = parseInt(splitted[i].trim(), 10);
    if (Number.isNaN(num)) { num = 0; }
    thresholds.push(num);
  }
  this.props.onChange({ colors: this.props.colors || [], thresholds });
>> *)
Definition handleThresholdChange (p : Props) (value : string) : Change :=
  let splitted := split ","%char value in
  let thresholds :=
    map (fun seg => match parseInt10 (trim seg) with Some num => num | None => 0%Z end)
        splitted in
  mkChange thresholds (match colors p with Some cs => cs | None => [] end).

(** [handleColorsChange]:
<<
  const colors = item.map(({ value }) => value as string);
  this.props.onChange({ colors, thresholds: this.props.thresholds || [] });
>>
    A [SelectableValue<string>] is modelled with its [value] present. *)
Record SelectableValue := mkSelectableValue {
  sv_value : string;
  sv_label : string
}.

Definition handleColorsChange (p : Props) (item : list SelectableValue) : Change :=
  let colors := map sv_value item in
  mkChange (match thresholds p with Some ts => ts | None => [] end) colors.

(** The decimal digits of [n >= 0], least significant first ([fuel]
    bounds the digit count). *)
Fixpoint rev_digits (fuel : nat) (n : Z) : list ascii :=
  match fuel with
  | O => []
  | S fuel' =>
      ascii_of_nat (48 + Z.to_nat (n mod 10))
        :: (if (n <? 10)%Z then [] else rev_digits fuel' (n / 10))
  end.

Definition decimal_digits (n : Z) : list ascii :=
  rev (rev_digits (S (Z.to_nat (Z.log2 n))) n).

(** [Number.prototype.toString()] on an integer: an optional minus sign
    and the decimal digits.  This is what JavaScript prints for the safe
    integers (magnitude at most 2^53); larger numbers print rounded or in
    exponent notation, which is not modelled. *)
Definition numberToString (n : Z) : string :=
  string_of_list_ascii ((if (n <? 0)%Z then ["-"%char] else []) ++ decimal_digits (Z.abs n)).

(** The values [render] gives its two inputs, with the destructuring
    defaults [thresholds = []] and [colors = []]:
<<
  value={colors.map(value => ({value, label: value}))}
  value={thresholds.join(', ')}
>> *)
Definition renderColorsValue (p : Props) : list SelectableValue :=
  map (fun value => mkSelectableValue value value)
      (match colors p with Some cs => cs | None => [] end).

Definition renderThresholdsValue (p : Props) : string :=
  String.concat ", "
    (map numberToString (match thresholds p with Some ts => ts | None => [] end)).

End ThresholdsForm.

(* ================================================================== *)
(** * Properties *)

(** The table as built by the constructor, before any update. *)
Definition initialTable (p : Props) (r : list ColumnRenderInfo) : Table :=
  mkTable p (mkState None None (deref (data p))) r ∅ false None.

(** React applying the state queued by [setState]. *)
Definition applyPending (t : Table) : Table :=
  match pendingState t with
  | Some s => set_pending None (set_state s t)
  | None => t
  end.

(** A header activation of column [C] as seen by the Sort Controller:
    [doSort C] and the state update it queues. *)
Definition activate (C : Z) (t : Table) : Table := applyPending (snd (doSort C t)).

Definition activations (cs : list Z) (t : Table) : Table :=
  fold_left (fun t C => activate C t) cs t.

(** The sort status of one column. *)
Inductive ColumnSort := Unsorted | Descending | Ascending.

Definition column_sort (s : State) (C : Z) : ColumnSort :=
  if opt_eqb Z.eqb (sortBy s) (Some C) then
    match sortDirection s with
    | Some DESC => Descending
    | Some ASC => Ascending
    | None => Unsorted
    end
  else Unsorted.

Definition next_sort (c : ColumnSort) : ColumnSort :=
  match c with Descending => Ascending | Ascending => Unsorted | Unsorted => Descending end.

(** Invariant of the sort state: a sorted column has a direction. *)
Definition sort_inv (s : State) : Prop :=
  match sortBy s with Some _ => sortDirection s <> None | None => True end.

(** ** Concrete scenarios, evaluated with [SubsetRegExp.engine] *)

Definition f_temp_avg : Field := mkField "temp_avg" 0 [3; 1; 2]%Z.
Definition f_temp_max : Field := mkField "temp_max" 1 [5; 9; 7]%Z.
Definition f_status : Field := mkField "status" 2 [1; 0; 1]%Z.

(** The dataset of the spec's scenario: three columns, three rows. *)
Definition frame3 : DataFrame := mkDataFrame [f_temp_avg; f_temp_max; f_status] 3.

Definition temp_rule : ColumnStyle := mkColumnStyle "temp_.*" "Temperature" 0.

(** Props with dataset object [did], style list object [sid] holding
    [rules], viewport width [w] and the header shown or not. *)
Definition mk_props (did : nat) (d : DataFrame) (sid : nat) (rules : list ColumnStyle)
  (w : Q) (showH : bool) : Props :=
  mkProps (mkRef did d) 150 showH true 0 (mkRef sid rules) w 400.

Definition scenario_props : Props := mk_props 1 frame3 1 [temp_rule] 900 true.

(** A table over [p] whose layout is built and whose cache holds one
    measured cell. *)
Definition measured_table (p : Props) : Table :=
  match @initColumns SubsetRegExp.engine p with
  | Ok r => set_measurer {[(0%nat, 0%nat) := 30%Q]} (initialTable p r)
  | Throw _ => set_measurer {[(0%nat, 0%nat) := 30%Q]} (initialTable p [])
  end.

Definition hidden_header_props : Props := mk_props 1 frame3 1 [temp_rule] 900 false.

(** A new (empty) dataset object: no fields, no rows. *)
Definition empty_props : Props := mk_props 2 (mkDataFrame [] 0) 1 [temp_rule] 900 true.

(** A rule whose pattern is not a valid regular expression, and a rule
    that matches the column "status". *)
Definition bad_rule : ColumnStyle := mkColumnStyle "(" "x" 5.
Definition status_rule : ColumnStyle := mkColumnStyle "status" "State" 6.

(** Digit-by-digit reading of [ThresholdsForm.digits], and the digit
    characters. *)
Definition digit_step (a : Z) (c : ascii) : Z :=
  match ThresholdsForm.digit_value c with Some d => (a * 10 + d)%Z | None => a end.

Definition is_digit (c : ascii) : Prop := exists d, ThresholdsForm.digit_value c = Some d.

Ltac cdu_simpl :=
  unfold componentDidUpdate, bind, get, ret, modify, lift, setState, clearAll; simpl.

Ltac unfold_monad :=
  unfold bind, get, ret, modify, lift, setState, clearAll in *; cbn in *.

Lemma opt_eqb_Z_spec (x y : option Z) : opt_eqb Z.eqb x y = true <-> x = y.
Proof.
  destruct x, y; cbn; split; intros; try congruence.
  - apply Z.eqb_eq in H. congruence.
  - apply Z.eqb_eq. congruence.
Qed.

Lemma activate_state (C : Z) (t : Table) :
  pendingState t = None ->
  state (activate C t) =
    (let sort := sortBy (state t) in
     let dir := sortDirection (state t) in
     if negb (opt_eqb Z.eqb sort (Some C)) then mkState (Some C) (Some DESC) (state_data (state t))
     else if isDESC dir then mkState sort (Some ASC) (state_data (state t))
     else mkState None dir (state_data (state t)))
  /\ pendingState (activate C t) = None.
Proof.
  intros Hp. destruct t as [p st r m sc pe]; cbn in Hp; subst pe.
  unfold activate, doSort, applyPending. unfold_monad.
  destruct (negb _); [cbn; auto|]. destruct (isDESC _); cbn; auto.
Qed.

Lemma activations_inv (cs : list Z) (t : Table) :
  pendingState t = None -> sort_inv (state t) ->
  pendingState (activations cs t) = None /\ sort_inv (state (activations cs t)).
Proof.
  revert t. induction cs as [|C cs IH]; intros t Hp Hi; cbn; [auto|].
  apply IH; destruct (activate_state C t Hp) as [Hs Hp']; auto.
  rewrite Hs. cbn. unfold sort_inv in *.
  destruct (negb _); cbn; [congruence|].
  destruct (isDESC _) eqn:Hd; cbn; [|trivial].
  destruct (sortBy (state t)); congruence.
Qed.

(** ** C2: the sort cycle *)

(** C2. From any sort state reachable from a freshly built table by header
    activations, activating column [C] moves [C] one step along the cycle
    Descending -> Ascending -> Unsorted -> Descending; activating a column
    [D] that is not the sorted column sorts [D] descending and leaves every
    other column unsorted; and at most one column is sorted. *)
Theorem sort_cycle (p : Props) (r : list ColumnRenderInfo) (cs : list Z) (C D : Z) :
  let t := activations cs (initialTable p r) in
  column_sort (state (activate C t)) C = next_sort (column_sort (state t) C)
  /\ (sortBy (state t) <> Some D ->
      sortBy (state (activate D t)) = Some D
      /\ sortDirection (state (activate D t)) = Some DESC
      /\ forall C', C' <> D -> column_sort (state (activate D t)) C' = Unsorted)
  /\ (forall C1 C2, column_sort (state t) C1 <> Unsorted ->
                    column_sort (state t) C2 <> Unsorted -> C1 = C2).
Proof.
  intros t.
  destruct (activations_inv cs (initialTable p r) eq_refl I) as [Hp Hi]. fold t in Hp, Hi.
  split; [|split].
  - destruct (activate_state C t Hp) as [Hs _]. rewrite Hs. clear Hs.
    unfold column_sort, sort_inv in *.
    destruct (state t) as [sb sd sdat]; simpl in *.
    destruct sb as [c|]; simpl.
    + destruct (Z.eqb_spec c C) as [->|Hne]; simpl.
      * destruct sd as [[|]|]; simpl; rewrite ?Z.eqb_refl; try reflexivity; congruence.
      * rewrite Z.eqb_refl. reflexivity.
    + rewrite Z.eqb_refl. reflexivity.
  - intros HD. destruct (activate_state D t Hp) as [Hs _]. rewrite Hs. clear Hs.
    assert (Hn : opt_eqb Z.eqb (sortBy (state t)) (Some D) = false).
    { destruct (opt_eqb _ _ _) eqn:E; [apply opt_eqb_Z_spec in E; congruence|reflexivity]. }
    cbv zeta. rewrite Hn. simpl. split; [reflexivity|split; [reflexivity|]].
    intros C' HC'. unfold column_sort. simpl.
    destruct (Z.eqb_spec D C'); [congruence|reflexivity].
  - intros C1 C2 H1 H2. unfold column_sort in H1, H2.
    destruct (opt_eqb Z.eqb (sortBy (state t)) (Some C1)) eqn:E1; [|congruence].
    destruct (opt_eqb Z.eqb (sortBy (state t)) (Some C2)) eqn:E2; [|congruence].
    apply opt_eqb_Z_spec in E1, E2. congruence.
Qed.

(** ** C6: the coordinate mapping *)

(** C6. [getCellRef] maps grid row [r] to data row [r - 1] when the header
    is shown (so the header row 0 maps to -1) and to [r] otherwise; the
    column index is unchanged. *)
Theorem getCellRef_mapping (t : Table) (r c : Z) :
  column (getCellRef t r c) = c
  /\ row (getCellRef t r c) = (if showHeader (props t) then r - 1 else r)%Z
  /\ (showHeader (props t) = true -> row (getCellRef t 0 c) = (-1)%Z).
Proof.
  unfold getCellRef. simpl. destruct (showHeader (props t)); simpl; repeat split; lia || discriminate.
Qed.

(** ** C3: measurement cache invalidation *)

(** C3. After [componentDidUpdate] (whether it returns or throws) the
    measurement cache is empty if the dataset reference changed or one of
    showHeader, fixedColumns, fixedHeader changed, and is untouched
    otherwise; in particular an update that changes only the style list
    rebuilds the column layout and keeps every cache entry. *)
Theorem cdu_cache_invalidation `{RegExpEngine} (prevProps : Props) (prevState : State) (t : Table) :
  let t' := snd (componentDidUpdate prevProps prevState t) in
  measurer t' = (if (dataChanged (props t) prevProps || configsChanged (props t) prevProps)%bool
                 then ∅ else measurer t)
  /\ (dataChanged (props t) prevProps = false ->
      configsChanged (props t) prevProps = false ->
      stylesChanged (props t) prevProps = true ->
      measurer t' = measurer t
      /\ renderer t' = match initColumns (props t) with Ok r => r | Throw _ => renderer t end).
Proof.
  destruct t as [p st r m sc pe]. simpl. cdu_simpl.
  destruct (dataChanged p prevProps), (configsChanged p prevProps), (stylesChanged p prevProps);
    simpl; (split; [|intros; try discriminate]);
    destruct (initColumns p); simpl; try destruct (sortChanged st prevState); simpl; auto.
Qed.

(** ** C9: updates that change neither dataset, styles nor sort *)

Lemma measured_table_measurer (p : Props) :
  measurer (measured_table p) = {[(0%nat, 0%nat) := 30%Q]}.
Proof. unfold measured_table. destruct (initColumns p); reflexivity. Qed.

(** C9 (counterexample). Hiding the header while the dataset, the style
    list and the sort state stay the same still clears the measurement
    cache. *)
Lemma cdu_header_toggle_clears_cache :
  let t := measured_table scenario_props in
  dataChanged (props t) hidden_header_props = false
  /\ stylesChanged (props t) hidden_header_props = false
  /\ sortChanged (state t) (state t) = false
  /\ measurer t <> ∅
  /\ measurer (snd (@componentDidUpdate SubsetRegExp.engine hidden_header_props (state t) t)) = ∅.
Proof.
  intros t. split; [reflexivity|split; [reflexivity|split; [reflexivity|split]]].
  - unfold t. rewrite measured_table_measurer. apply map_non_empty_singleton.
  - vm_compute. reflexivity.
Qed.

(** C9 (amended). When the dataset reference, the style-list reference
    and the sort state are unchanged, [componentDidUpdate] returns normally
    without rebuilding the layout, re-sorting or requesting a scroll to
    the top: the only possible effect is clearing the measurement cache,
    which happens exactly when showHeader, fixedColumns or fixedHeader
    changed. *)
Theorem cdu_unchanged_inputs `{RegExpEngine} (prevProps : Props) (prevState : State) (t : Table)
  (Hd : dataChanged (props t) prevProps = false)
  (Hs : stylesChanged (props t) prevProps = false)
  (Hsort : sortChanged (state t) prevState = false) :
  componentDidUpdate prevProps prevState t
  = (Ok tt, if configsChanged (props t) prevProps then set_measurer ∅ t else t).
Proof.
  destruct t as [p st r m sc pe]. simpl in *. cdu_simpl.
  rewrite Hd, Hs, Hsort. simpl.
  destruct (configsChanged p prevProps); reflexivity.
Qed.

Lemma cdu_unchanged_inputs_witness :
  let t := measured_table scenario_props in
  dataChanged (props t) hidden_header_props = false
  /\ stylesChanged (props t) hidden_header_props = false
  /\ sortChanged (state t) (state t) = false
  /\ @componentDidUpdate SubsetRegExp.engine hidden_header_props (state t) t
     = (Ok tt, if configsChanged (props t) hidden_header_props then set_measurer ∅ t else t).
Proof.
  intros t.
  split; [reflexivity|split; [reflexivity|split; [reflexivity|]]].
  apply (cdu_unchanged_inputs hidden_header_props (state t) t); reflexivity.
Defined.

(** ** C1: header cells *)

(** C1 (evaluation at the spec's scenario). With the rule
    [temp_.* -> Temperature], the Style Resolver gives the titles
    "Temperature", "Temperature", "status", but the header cells render
    the raw names "temp_avg" and "temp_max": [headerBuilder] prints
    [col.name] and never reads [ColumnRenderInfo.header]. *)
Theorem header_cell_shows_raw_name :
  match @constructor SubsetRegExp.engine scenario_props with
  | Ok t =>
      map header (renderer t) = ["Temperature"; "Temperature"; "status"]
      /\ fst (cellRenderer 0 0 t) = Ok (HeaderCellOut (mkHeaderCell "temp_avg" None))
      /\ fst (cellRenderer 0 1 t) = Ok (HeaderCellOut (mkHeaderCell "temp_max" None))
      /\ fst (cellRenderer 0 2 t) = Ok (HeaderCellOut (mkHeaderCell "status" None))
  | Throw _ => False
  end.
Proof. vm_compute. repeat split. Qed.

(** ** C4: the scroll-to-top flag *)

(** C4 (evaluation with the header hidden). A new dataset sets the flag;
    the render that follows consumes it with [scrollToRow = 1] and clears
    it.  With the header hidden, grid row 1 is data row 1, the second data
    row; the first data row is grid row 0. *)
Theorem scroll_to_top_hidden_header :
  match @constructor SubsetRegExp.engine hidden_header_props with
  | Ok t0 =>
      match @receiveProps SubsetRegExp.engine (mk_props 2 frame3 1 [temp_rule] 900 false) 5 t0 with
      | (Ok outs, t') =>
          map (fun o => match o with MultiGrid g => Some (scrollToRow g) | MissingFields => None end) outs
            = [Some (-1)%Z; Some 1%Z]
          /\ scrollToTop t' = false
          /\ row (getCellRef t' 1 0) = 1%Z
          /\ row (getCellRef t' 0 0) = 0%Z
      | (Throw _, _) => False
      end
  | Throw _ => False
  end.
Proof. vm_compute. repeat split. Qed.

(** ** C5: malformed style patterns *)

Lemma omap_throw {A B} (f : A -> outcome B) (l : list A) (x : A) (e : exn) :
  In x l -> f x = Throw e -> exists e', omap f l = Throw e'.
Proof.
  induction l as [|y l IH]; intros Hin Hx; [destruct Hin|].
  simpl. destruct Hin as [<-|Hin].
  - rewrite Hx. simpl. eauto.
  - destruct (f y) as [b|e']; simpl; [|eauto].
    destruct (IH Hin Hx) as [e'' ->]. simpl. eauto.
Qed.

(** C5 (counterexample). A malformed first rule makes the resolution of
    "status" throw [SyntaxError], although the second rule alone resolves
    it to "State"; the whole layout build throws. *)
Lemma malformed_pattern_throws :
  @find_style SubsetRegExp.engine "status" [status_rule] = Ok ("State", Some status_rule)
  /\ @find_style SubsetRegExp.engine "status" [bad_rule; status_rule] = Throw SyntaxError
  /\ @initColumns SubsetRegExp.engine (mk_props 1 frame3 2 [bad_rule; status_rule] 900 true)
     = Throw SyntaxError.
Proof. vm_compute. repeat split. Qed.

(** C5 (amended). When the style loop of a column reaches a rule whose
    pattern makes [stringToJsRegex] throw (every earlier rule compiled and
    did not match), the exception escapes: the later rules are not
    evaluated, and [initColumns] throws, so no column layout is built. *)
Theorem malformed_pattern_propagates `{RegExpEngine} (p : Props) (col : Field)
  (pre : list ColumnStyle) (bad : ColumnStyle) (post : list ColumnStyle) (e : exn)
  (Hcol : In col (fields (deref (data p))))
  (Hstyles : deref (styles p) = (pre ++ bad :: post)%list)
  (Hpre : Forall (fun s => exists r, stringToJsRegex (pattern s) = Ok r
                                     /\ re_test r (name col) = false) pre)
  (Hbad : stringToJsRegex (pattern bad) = Throw e) :
  find_style (name col) (deref (styles p)) = Throw e
  /\ exists e', initColumns p = Throw e'.
Proof.
  assert (Hf : find_style (name col) (deref (styles p)) = Throw e).
  { rewrite Hstyles. clear Hstyles Hcol.
    induction Hpre as [|s pre [r [Hr Ht]] _ IH]; simpl.
    - rewrite Hbad. reflexivity.
    - rewrite Hr. simpl. rewrite Ht. exact IH. }
  split; [exact Hf|].
  unfold initColumns.
  destruct (fields (deref (data p))) as [|f fs] eqn:Hfs; [destruct Hcol|].
  rewrite <- Hfs in Hcol |- *.
  apply (omap_throw _ _ col e Hcol). rewrite Hf. reflexivity.
Qed.

Lemma malformed_pattern_propagates_witness :
  let p := mk_props 1 frame3 2 [bad_rule; status_rule] 900 true in
  In f_temp_avg (fields (deref (data p)))
  /\ deref (styles p) = ([] ++ bad_rule :: [status_rule])%list
  /\ Forall (fun s => exists r, @stringToJsRegex SubsetRegExp.engine (pattern s) = Ok r
                                /\ @re_test SubsetRegExp.engine r (name f_temp_avg) = false) []
  /\ @stringToJsRegex SubsetRegExp.engine (pattern bad_rule) = Throw SyntaxError
  /\ (@find_style SubsetRegExp.engine (name f_temp_avg) (deref (styles p)) = Throw SyntaxError
      /\ exists e', @initColumns SubsetRegExp.engine p = Throw e').
Proof.
  intros p.
  split; [simpl; auto|split; [reflexivity|split; [constructor|split; [vm_compute; reflexivity|]]]].
  apply (malformed_pattern_propagates p f_temp_avg [] bad_rule [status_rule] SyntaxError).
  - simpl; auto.
  - reflexivity.
  - constructor.
  - vm_compute; reflexivity.
Defined.

(** ** C7: column widths *)

Lemma omap_ok {A B} (f : A -> outcome B) (P : B -> Prop) (l : list A) (r : list B) :
  (forall x y, f x = Ok y -> P y) -> omap f l = Ok r -> length r = length l /\ Forall P r.
Proof.
  intros HP. revert r. induction l as [|x l IH]; intros r Hr; simpl in Hr.
  - injection Hr as <-. split; [reflexivity|constructor].
  - destruct (f x) as [y|e] eqn:Hx; simpl in Hr; [|discriminate].
    destruct (omap f l) as [ys|e] eqn:Hl; simpl in Hr; [|discriminate].
    injection Hr as <-. destruct (IH ys eq_refl) as [Hlen HF].
    split; [simpl; congruence|]. constructor; [exact (HP x y Hx)|exact HF].
Qed.

(** C7 (counterexample). A table laid out for a 900-wide viewport gives
    its three columns the width max(900/3, 150) = 300; after the viewport
    grows to 1800 (same dataset and style list objects) the columns are
    still 300 wide, not max(1800/3, 150) = 600. *)
Lemma width_change_keeps_widths :
  match @constructor SubsetRegExp.engine scenario_props with
  | Ok t0 =>
      fst (getColumnWidth 0 t0) = Ok (Qmax (900 / inject_Z 3) 150)
      /\ match @receiveProps SubsetRegExp.engine (mk_props 1 frame3 1 [temp_rule] 1800 true) 5 t0 with
         | (Ok _, t') =>
             fst (getColumnWidth 0 t') = Ok (Qmax (900 / inject_Z 3) 150)
             /\ (Qmax (900 / inject_Z 3) 150 == 300)%Q
             /\ ~ (Qmax (900 / inject_Z 3) 150 == Qmax (1800 / inject_Z 3) 150)%Q
         | (Throw _, _) => False
         end
  | Throw _ => False
  end.
Proof. vm_compute. repeat split. intros Hq. discriminate Hq. Qed.

(** C7 (amended). A layout build that succeeds gives every column the
    same width max(W/N, M) for the W, N, M of the props it is built from;
    [componentDidUpdate] rebuilds the layout when the dataset or the style
    list reference changed and keeps the previous one otherwise (so a
    change of width or minColumnWidth alone keeps the old widths); and the
    grid's [getColumnWidth] returns the width stored in the layout. *)
Theorem column_widths `{RegExpEngine} (prevProps : Props) (prevState : State) (t : Table) :
  let p := props t in
  let fs := fields (deref (data p)) in
  let t' := snd (componentDidUpdate prevProps prevState t) in
  (forall r, initColumns p = Ok r ->
     length r = length fs
     /\ Forall (fun ci => column_width ci
                          = Qmax (width p / inject_Z (Z.of_nat (length fs))) (minColumnWidth p)) r)
  /\ (forall r, (dataChanged p prevProps || stylesChanged p prevProps)%bool = true ->
       initColumns p = Ok r -> renderer t' = r)
  /\ ((dataChanged p prevProps || stylesChanged p prevProps)%bool = false -> renderer t' = renderer t)
  /\ (forall (i : nat) ci, renderer t' !! i = Some ci ->
        fst (getColumnWidth (Z.of_nat i) t') = Ok (column_width ci)).
Proof.
  intros p fs t'. split; [|split; [|split]].
  - intros r Hr. unfold initColumns in Hr. fold p fs in Hr.
    destruct fs as [|f fs'] eqn:Hfs.
    + injection Hr as <-. split; [reflexivity|constructor].
    + rewrite <- Hfs in Hr |- *.
      eapply omap_ok; [|exact Hr].
      intros x y Hx. simpl in Hx. destruct (find_style (name x) (deref (styles p))); simpl in Hx; [|discriminate].
      injection Hx as <-. reflexivity.
  - intros r Hc Hr. subst t'. destruct t as [p0 st r0 m sc pe]. subst p. simpl in *.
    cdu_simpl. rewrite Hc. simpl. rewrite Hr. simpl.
    destruct (dataChanged p0 prevProps || configsChanged p0 prevProps)%bool; simpl;
    destruct (dataChanged p0 prevProps || sortChanged st prevState)%bool; reflexivity.
  - intros Hc. subst t'. destruct t as [p0 st r0 m sc pe]. subst p. simpl in *.
    cdu_simpl. rewrite Hc. simpl.
    destruct (dataChanged p0 prevProps || configsChanged p0 prevProps)%bool; simpl;
    destruct (dataChanged p0 prevProps || sortChanged st prevState)%bool; reflexivity.
  - intros i ci Hi. unfold getColumnWidth, bind, get, ret, lift, lookupZ. simpl.
    assert (Hneg : (Z.of_nat i <? 0)%Z = false) by (apply Z.ltb_ge; lia).
    rewrite Hneg, Nat2Z.id, Hi. reflexivity.
Qed.

(** ** C8: datasets without columns *)

Lemma initColumns_no_fields `{RegExpEngine} (p : Props) :
  fields (deref (data p)) = [] -> initColumns p = Ok [].
Proof. intros Hf. unfold initColumns. rewrite Hf. reflexivity. Qed.

Lemma sortDataFrame_no_fields (d : DataFrame) (i : option Z) (rev : bool) :
  fields d = [] -> sortDataFrame d i rev = d.
Proof.
  intros Hf. unfold sortDataFrame. destruct i as [i|]; [|reflexivity].
  unfold lookupZ. rewrite Hf. destruct (i <? 0)%Z; reflexivity.
Qed.

(** C8 (counterexample). A table showing [frame3] with one measured cell
    receives a new dataset without fields.  The final render is the
    placeholder, but the update cleared the measurement cache, rebuilt the
    (now empty) column layout and set the scroll-to-top flag; the render
    before the update completes still shows the old grid. *)
Lemma empty_dataset_update_does_work :
  let t := measured_table scenario_props in
  measurer t <> ∅
  /\ renderer t <> []
  /\ match @receiveProps SubsetRegExp.engine empty_props 5 t with
     | (Ok outs, t') =>
         outs = [MultiGrid (mkGridProps (-1) (-1) 3 4 0 1); MissingFields]
         /\ measurer t' = ∅ /\ renderer t' = [] /\ scrollToTop t' = true
     | (Throw _, _) => False
     end.
Proof.
  intros t. split; [|split].
  - unfold t. rewrite measured_table_measurer. apply map_non_empty_singleton.
  - vm_compute. discriminate.
  - vm_compute. repeat split.
Qed.

Lemma render_no_fields (u : Table) :
  fields (state_data (state u)) = [] -> render u = (Ok MissingFields, u).
Proof.
  intros Hf. unfold render, bind, get, ret. simpl. rewrite Hf. reflexivity.
Qed.

(** C8 (amended). [render] on a dataset without fields returns exactly the
    "Missing Fields" placeholder, throws nothing and leaves the table as it
    is (no layout, cache or flag access).  The update that receives a new
    dataset without fields is not guarded: it returns normally after
    clearing the measurement cache, rebuilding the (empty) column layout,
    queueing the re-sorted data (the dataset itself) and setting the
    scroll-to-top flag, and the render of that data is the placeholder. *)
Theorem empty_dataset_update `{RegExpEngine} (prevProps : Props) (prevState : State) (t : Table)
  (Hempty : fields (deref (data (props t))) = [])
  (Hd : dataChanged (props t) prevProps = true) :
  let t' := snd (componentDidUpdate prevProps prevState t) in
  fst (componentDidUpdate prevProps prevState t) = Ok tt
  /\ measurer t' = ∅ /\ renderer t' = [] /\ scrollToTop t' = true
  /\ (exists s', pendingState t' = Some s' /\ state_data s' = deref (data (props t)))
  /\ render (applyPending t') = (Ok MissingFields, applyPending t')
  /\ (forall u : Table, fields (state_data (state u)) = [] -> render u = (Ok MissingFields, u)).
Proof.
  destruct t as [p st r m sc pe]. simpl in *. cdu_simpl.
  rewrite Hd. simpl. rewrite (initColumns_no_fields p Hempty). simpl.
  rewrite (sortDataFrame_no_fields _ _ _ Hempty).
  split; [reflexivity|split; [reflexivity|split; [reflexivity|split; [reflexivity|]]]].
  split; [eexists; split; reflexivity|].
  split; [|exact render_no_fields].
  apply render_no_fields. simpl. exact Hempty.
Qed.

Lemma empty_dataset_update_witness :
  let t := set_props empty_props (measured_table scenario_props) in
  fields (deref (data (props t))) = []
  /\ dataChanged (props t) scenario_props = true
  /\ (let t' := snd (@componentDidUpdate SubsetRegExp.engine scenario_props (state t) t) in
      fst (@componentDidUpdate SubsetRegExp.engine scenario_props (state t) t) = Ok tt
      /\ measurer t' = ∅ /\ renderer t' = [] /\ scrollToTop t' = true
      /\ (exists s', pendingState t' = Some s' /\ state_data s' = deref (data (props t)))
      /\ render (applyPending t') = (Ok MissingFields, applyPending t')
      /\ (forall u : Table, fields (state_data (state u)) = [] -> render u = (Ok MissingFields, u))).
Proof.
  intros t. split; [reflexivity|split; [reflexivity|]].
  apply (empty_dataset_update scenario_props (state t) t); reflexivity.
Defined.

(** ** C10: the thresholds field *)

Lemma split_not_nil (sep : ascii) (s : string) : ThresholdsForm.split sep s <> [].
Proof.
  destruct s as [|c r]; simpl; [discriminate|].
  destruct (Ascii.eqb c sep); [discriminate|].
  destruct (ThresholdsForm.split sep r); discriminate.
Qed.




(* ================================================================== *)
(** * Further properties of the Table component *)

(** Clicks: only a click on the header row sorts; any other click on a
    grid cell leaves the table untouched. *)
Theorem onCellClick_sorts_only_header (t : Table) (r c : Z) (Hr : (0 <= r)%Z) :
  onCellClick r c t
  = if (showHeader (props t) && Z.eqb r 0)%bool then doSort c t else (Ok tt, t).
Proof.
  unfold onCellClick, bind, get, ret, getCellRef. simpl.
  destruct (showHeader (props t)); simpl.
  - destruct (Z.eqb_spec r 0) as [->|Hne]; [reflexivity|].
    replace (r + -1 <? 0)%Z with false by (symmetry; apply Z.ltb_ge; lia). reflexivity.
  - replace (r + 0 <? 0)%Z with false by (symmetry; apply Z.ltb_ge; lia). reflexivity.
Qed.

Lemma onCellClick_sorts_only_header_witness :
  (0 <= 0)%Z
  /\ onCellClick 0 1 (measured_table scenario_props)
     = if (showHeader (props (measured_table scenario_props)) && Z.eqb 0 0)%bool
       then doSort 1 (measured_table scenario_props)
       else (Ok tt, measured_table scenario_props).
Proof. split; [lia|]. apply onCellClick_sorts_only_header. lia. Defined.

(** [render] on a non-empty dataset: the grid's shape follows the data and
    the props, the fixed column count never exceeds the column count, the
    only change to the table is that the scroll-to-top flag is consumed,
    and rendering again gives the same grid without a scroll request. *)
Theorem render_grid (t : Table) (Hne : fields (state_data (state t)) <> []) :
  exists g,
    render t = (Ok (MultiGrid g), set_scrollToTop false t)
    /\ columnCount g = Z.of_nat (length (fields (state_data (state t))))
    /\ rowCount g = (Z.of_nat (frame_length (state_data (state t)))
                     + if showHeader (props t) then 1 else 0)%Z
    /\ fixedRowCount g = (if (showHeader (props t) && fixedHeader (props t))%bool then 1 else 0)%Z
    /\ (fixedColumnCount g <= columnCount g)%Z
    /\ scrollToColumn g = (-1)%Z
    /\ scrollToRow g = (if scrollToTop t then 1 else -1)%Z
    /\ render (set_scrollToTop false t)
       = (Ok (MultiGrid (mkGridProps (-1) (scrollToColumn g) (columnCount g) (rowCount g)
                                     (fixedColumnCount g) (fixedRowCount g))),
          set_scrollToTop false t).
Proof.
  destruct t as [p st r m sc pe]. simpl in *.
  unfold render, bind, get, ret, modify. simpl.
  destruct (fields (state_data st)) as [|f fs] eqn:Hf; [congruence|].
  destruct sc; (eexists; split; [reflexivity|]);
    simpl; repeat split; try reflexivity; apply Z.le_min_r.
Qed.

Lemma render_grid_witness :
  fields (state_data (state (measured_table scenario_props))) <> []
  /\ exists g,
    render (measured_table scenario_props)
      = (Ok (MultiGrid g), set_scrollToTop false (measured_table scenario_props))
    /\ columnCount g = Z.of_nat (length (fields (state_data (state (measured_table scenario_props)))))
    /\ rowCount g = (Z.of_nat (frame_length (state_data (state (measured_table scenario_props))))
                     + if showHeader (props (measured_table scenario_props)) then 1 else 0)%Z
    /\ fixedRowCount g = (if (showHeader (props (measured_table scenario_props))
                              && fixedHeader (props (measured_table scenario_props)))%bool
                          then 1 else 0)%Z
    /\ (fixedColumnCount g <= columnCount g)%Z
    /\ scrollToColumn g = (-1)%Z
    /\ scrollToRow g = (if scrollToTop (measured_table scenario_props) then 1 else -1)%Z
    /\ render (set_scrollToTop false (measured_table scenario_props))
       = (Ok (MultiGrid (mkGridProps (-1) (scrollToColumn g) (columnCount g) (rowCount g)
                                     (fixedColumnCount g) (fixedRowCount g))),
          set_scrollToTop false (measured_table scenario_props)).
Proof.
  split; [vm_compute; discriminate|].
  apply render_grid. vm_compute. discriminate.
Defined.


(** [headerBuilder]: a header shows the field name of its column in the
    rendered dataset, and carries the sort indicator exactly when its
    column is [sortBy]; hence at most one header shows the indicator. *)
Theorem headerBuilder_indicator (t : Table) (r c : Z) (h : HeaderCell)
  (Hh : fst (headerBuilder r c t) = Ok h) :
  (exists f, lookupZ (fields (state_data (state t))) c = Some f /\ header_text h = name f)
  /\ (sort_indicator h <> None <-> sortBy (state t) = Some c)
  /\ (forall c' h', fst (headerBuilder r c' t) = Ok h' -> sort_indicator h <> None ->
                    sort_indicator h' <> None -> c' = c).
Proof.
  assert (Hgen : forall c h, fst (headerBuilder r c t) = Ok h ->
    (exists f, lookupZ (fields (state_data (state t))) c = Some f /\ header_text h = name f)
    /\ (sort_indicator h <> None <-> sortBy (state t) = Some c)).
  { clear c h Hh. intros c h Hh.
    unfold headerBuilder, bind, get, ret, lift, getCellRef in Hh. simpl in Hh.
    destruct (lookupZ (fields (state_data (state t))) c) as [f|] eqn:Hl; simpl in Hh;
      [|discriminate].
    injection Hh as <-. split; [eauto|]. simpl.
    destruct (opt_eqb Z.eqb (sortBy (state t)) (Some c)) eqn:E.
    - apply opt_eqb_Z_spec in E. split; [auto|discriminate].
    - split; [tauto|]. intros Hs. apply opt_eqb_Z_spec in Hs. congruence. }
  destruct (Hgen c h Hh) as [Hf Hi]. split; [exact Hf|split; [exact Hi|]].
  intros c' h' Hh' H1 H2. destruct (Hgen c' h' Hh') as [_ Hi'].
  apply Hi in H1. apply Hi' in H2. congruence.
Qed.

Lemma headerBuilder_indicator_witness :
  let t := activate 1 (measured_table scenario_props) in
  exists h, fst (headerBuilder 0 1 t) = Ok h
  /\ (exists f, lookupZ (fields (state_data (state t))) 1 = Some f /\ header_text h = name f)
  /\ (sort_indicator h <> None <-> sortBy (state t) = Some 1%Z)
  /\ (forall c' h', fst (headerBuilder 0 c' t) = Ok h' -> sort_indicator h <> None ->
                    sort_indicator h' <> None -> c' = 1%Z).
Proof.
  intros t. eexists. split; [vm_compute; reflexivity|].
  apply headerBuilder_indicator. vm_compute. reflexivity.
Defined.

Lemma activate_sort_changed (C : Z) (t : Table) (Hp : pendingState t = None) :
  sortChanged (state (activate C t)) (state t) = true
  /\ state_data (state (activate C t)) = state_data (state t).
Proof.
  destruct (activate_state C t Hp) as [Hs _]. rewrite Hs. cbv zeta.
  destruct (state t) as [sb sd d]. simpl. unfold sortChanged. simpl.
  destruct sb as [b|]; simpl; [|split; reflexivity].
  destruct (Z.eqb_spec b C) as [->|Hne].
  - destruct sd as [[|]|]; simpl; rewrite ?Z.eqb_refl; split; reflexivity.
  - simpl. destruct (Z.eqb_spec C b); [congruence|]. split; reflexivity.
Qed.





Lemma render_cons (u : Table) (x : Field) (xs : list Field) :
  fields (state_data (state u)) = x :: xs ->
  exists g, render u = (Ok (MultiGrid g), if scrollToTop u then set_scrollToTop false u else u)
  /\ scrollToRow g = (if scrollToTop u then 1 else -1)%Z.
Proof.
  intros Hf. unfold render, bind, get, ret, modify. simpl. rewrite Hf.
  destruct (scrollToTop u); eexists; split; reflexivity.
Qed.


(** [doSort] always changes the sort state ([sortBy] or [sortDirection]):
    every header activation is seen by [componentDidUpdate] as a sort
    change; the rendered dataset itself is not touched by [doSort]. *)
Theorem doSort_changes_sort (C : Z) (t : Table) (Hp : pendingState t = None) :
  sortChanged (state (activate C t)) (state t) = true
  /\ state_data (state (activate C t)) = state_data (state t).
Proof. exact (activate_sort_changed C t Hp). Qed.

Lemma doSort_changes_sort_witness :
  pendingState (measured_table scenario_props) = None
  /\ sortChanged (state (activate 1 (measured_table scenario_props)))
                 (state (measured_table scenario_props)) = true
  /\ state_data (state (activate 1 (measured_table scenario_props)))
     = state_data (state (measured_table scenario_props)).
Proof.
  split; [reflexivity|]. apply doSort_changes_sort. reflexivity.
Defined.

(** When the dataset object or the sort state changed (and the layout
    rebuild, if any, succeeds), [componentDidUpdate] sets the scroll flag
    and queues the dataset of the props re-sorted by the current sort
    state: it always sorts the original [props.data], never the already
    sorted [state.data], so clearing the sort restores the original row
    order. *)
Theorem cdu_resorts_props_data `{RegExpEngine} (prevProps : Props) (prevState : State) (t : Table)
  (Hp : pendingState t = None)
  (Htrig : (dataChanged (props t) prevProps || sortChanged (state t) prevState)%bool = true)
  (Hlayout : (dataChanged (props t) prevProps || stylesChanged (props t) prevProps)%bool = false
             \/ exists r, initColumns (props t) = Ok r) :
  let t' := snd (componentDidUpdate prevProps prevState t) in
  fst (componentDidUpdate prevProps prevState t) = Ok tt
  /\ scrollToTop t' = true
  /\ pendingState t'
     = Some (mkState (sortBy (state t)) (sortDirection (state t))
                     (sortDataFrame (deref (data (props t))) (sortBy (state t))
                                    (isDESC (sortDirection (state t)))))
  /\ (sortBy (state t) = None ->
      exists s', pendingState t' = Some s' /\ state_data s' = deref (data (props t))).
Proof.
  destruct t as [p st r m sc pe]. simpl in *. subst pe. cdu_simpl.
  destruct (dataChanged p prevProps || configsChanged p prevProps)%bool; simpl;
  destruct (dataChanged p prevProps || stylesChanged p prevProps)%bool eqn:Hc; simpl;
  try (destruct Hlayout as [Hf|[r' Hr']]; [discriminate|rewrite Hr'; simpl]);
  rewrite Htrig; simpl;
  (split; [reflexivity|split; [reflexivity|split; [reflexivity|]]]);
  intros Hn; rewrite Hn; eexists; split; reflexivity.
Qed.

Lemma cdu_resorts_props_data_witness :
  let t := set_props (mk_props 2 frame3 1 [temp_rule] 900 true) (measured_table scenario_props) in
  pendingState t = None
  /\ (dataChanged (props t) scenario_props || sortChanged (state t) (state t))%bool = true
  /\ ((dataChanged (props t) scenario_props || stylesChanged (props t) scenario_props)%bool = false
      \/ exists r, @initColumns SubsetRegExp.engine (props t) = Ok r)
  /\ (let t' := snd (@componentDidUpdate SubsetRegExp.engine scenario_props (state t) t) in
      fst (@componentDidUpdate SubsetRegExp.engine scenario_props (state t) t) = Ok tt
      /\ scrollToTop t' = true
      /\ pendingState t'
         = Some (mkState (sortBy (state t)) (sortDirection (state t))
                         (sortDataFrame (deref (data (props t))) (sortBy (state t))
                                        (isDESC (sortDirection (state t)))))
      /\ (sortBy (state t) = None ->
          exists s', pendingState t' = Some s' /\ state_data s' = deref (data (props t)))).
Proof.
  intros t.
  assert (Hl : exists r, @initColumns SubsetRegExp.engine (props t) = Ok r)
    by (eexists; vm_compute; reflexivity).
  split; [reflexivity|split; [reflexivity|split; [right; exact Hl|]]].
  apply cdu_resorts_props_data; [reflexivity|reflexivity|right; exact Hl].
Defined.

(** When the layout rebuild of an update throws, the exception escapes
    [componentDidUpdate] right after the cache step: the old layout is
    kept, the scroll flag is not set and no re-sorted state is queued. *)
Theorem cdu_layout_error `{RegExpEngine} (prevProps : Props) (prevState : State) (t : Table)
  (e : exn)
  (Hc : (dataChanged (props t) prevProps || stylesChanged (props t) prevProps)%bool = true)
  (He : initColumns (props t) = Throw e) :
  componentDidUpdate prevProps prevState t
  = (Throw e, if (dataChanged (props t) prevProps || configsChanged (props t) prevProps)%bool
              then set_measurer ∅ t else t).
Proof.
  destruct t as [p st r m sc pe]. simpl in *. cdu_simpl.
  destruct (dataChanged p prevProps || configsChanged p prevProps)%bool; simpl;
    rewrite Hc, He; reflexivity.
Qed.

Lemma cdu_layout_error_witness :
  let t := set_props (mk_props 1 frame3 2 [bad_rule; status_rule] 900 true)
                     (measured_table scenario_props) in
  (dataChanged (props t) scenario_props || stylesChanged (props t) scenario_props)%bool = true
  /\ @initColumns SubsetRegExp.engine (props t) = Throw SyntaxError
  /\ @componentDidUpdate SubsetRegExp.engine scenario_props (state t) t
     = (Throw SyntaxError,
        if (dataChanged (props t) scenario_props || configsChanged (props t) scenario_props)%bool
        then set_measurer ∅ t else t).
Proof.
  intros t.
  assert (He : @initColumns SubsetRegExp.engine (props t) = Throw SyntaxError)
    by (vm_compute; reflexivity).
  split; [reflexivity|split; [exact He|]].
  apply cdu_layout_error; [reflexivity|exact He].
Defined.

Lemma omap_Forall2 {A B} (f : A -> outcome B) (l : list A) (r : list B) :
  omap f l = Ok r -> Forall2 (fun x y => f x = Ok y) l r.
Proof.
  revert r. induction l as [|x l IH]; intros r Hr; simpl in Hr.
  - injection Hr as <-. constructor.
  - destruct (f x) as [y|e] eqn:Hx; simpl in Hr; [|discriminate].
    destruct (omap f l) as [ys|e] eqn:Hl; simpl in Hr; [|discriminate].
    injection Hr as <-. constructor; [exact Hx|exact (IH ys eq_refl)].
Qed.

(** The style loop: the first rule (in list order) whose pattern matches
    the title decides the header and the style; the rules after it are
    never compiled, so a malformed pattern there does no harm. *)
Theorem find_style_first_match `{RegExpEngine} (title : string)
  (pre : list ColumnStyle) (s : ColumnStyle) (post : list ColumnStyle) (r : RegExp)
  (Hpre : Forall (fun s => exists r, stringToJsRegex (pattern s) = Ok r
                                     /\ re_test r title = false) pre)
  (Hs : stringToJsRegex (pattern s) = Ok r)
  (Hm : re_test r title = true) :
  find_style title (pre ++ s :: post)%list
  = Ok (if String.eqb (alias s) "" then title else str_replace title r (alias s), Some s).
Proof.
  induction Hpre as [|s' pre [r' [Hr' Ht']] _ IH]; simpl.
  - rewrite Hs. simpl. rewrite Hm. reflexivity.
  - rewrite Hr'. simpl. rewrite Ht'. exact IH.
Qed.

Lemma find_style_first_match_witness :
  exists r,
  Forall (fun s => exists r, @stringToJsRegex SubsetRegExp.engine (pattern s) = Ok r
                             /\ @re_test SubsetRegExp.engine r "status" = false) [temp_rule]
  /\ @stringToJsRegex SubsetRegExp.engine (pattern status_rule) = Ok r
  /\ @re_test SubsetRegExp.engine r "status" = true
  /\ @find_style SubsetRegExp.engine "status" ([temp_rule] ++ status_rule :: [bad_rule])%list
     = Ok (if String.eqb (alias status_rule) "" then "status"
           else @str_replace SubsetRegExp.engine "status" r (alias status_rule), Some status_rule).
Proof.
  eexists.
  assert (Hs : @stringToJsRegex SubsetRegExp.engine (pattern status_rule)
               = Ok (match @stringToJsRegex SubsetRegExp.engine (pattern status_rule) with
                     | Ok r => r | Throw _ => SubsetRegExp.mkCompiled SubsetRegExp.REps false end))
    by (vm_compute; reflexivity).
  assert (Hpre : Forall (fun s => exists r, @stringToJsRegex SubsetRegExp.engine (pattern s) = Ok r
                                  /\ @re_test SubsetRegExp.engine r "status" = false) [temp_rule]).
  { constructor; [|constructor]. eexists. split; [vm_compute; reflexivity|vm_compute; reflexivity]. }
  assert (Hm : @re_test SubsetRegExp.engine
                 (match @stringToJsRegex SubsetRegExp.engine (pattern status_rule) with
                  | Ok r => r | Throw _ => SubsetRegExp.mkCompiled SubsetRegExp.REps false end)
                 "status" = true) by (vm_compute; reflexivity).
  split; [exact Hpre|split; [exact Hs|split; [exact Hm|]]].
  apply find_style_first_match; [exact Hpre|exact Hs|exact Hm].
Defined.

(** No rule matches (and all compile): the title is kept and no style is
    attached. *)
Theorem find_style_no_match `{RegExpEngine} (title : string) (ss : list ColumnStyle)
  (Hss : Forall (fun s => exists r, stringToJsRegex (pattern s) = Ok r
                                    /\ re_test r title = false) ss) :
  find_style title ss = Ok (title, None).
Proof.
  induction Hss as [|s ss [r [Hr Ht]] _ IH]; simpl; [reflexivity|].
  rewrite Hr. simpl. rewrite Ht. exact IH.
Qed.

Lemma find_style_no_match_witness :
  Forall (fun s => exists r, @stringToJsRegex SubsetRegExp.engine (pattern s) = Ok r
                             /\ @re_test SubsetRegExp.engine r "status" = false) [temp_rule]
  /\ @find_style SubsetRegExp.engine "status" [temp_rule] = Ok ("status", None).
Proof.
  assert (Hpre : Forall (fun s => exists r, @stringToJsRegex SubsetRegExp.engine (pattern s) = Ok r
                                  /\ @re_test SubsetRegExp.engine r "status" = false) [temp_rule]).
  { constructor; [|constructor]. eexists. split; [vm_compute; reflexivity|vm_compute; reflexivity]. }
  split; [exact Hpre|]. apply find_style_no_match. exact Hpre.
Defined.

(** A built layout has one entry per field, in field order: entry [i]
    shows the resolved title of field [i] and renders its cells with the
    builder for that field's config and matched style. *)
Theorem initColumns_layout `{RegExpEngine} (p : Props) (r : list ColumnRenderInfo)
  (Hr : initColumns p = Ok r) :
  length r = length (fields (deref (data p)))
  /\ forall (i : nat) ci, r !! i = Some ci ->
       exists f style, fields (deref (data p)) !! i = Some f
       /\ find_style (name f) (deref (styles p)) = Ok (header ci, style)
       /\ builder ci = getCellBuilder (config f) style.
Proof.
  unfold initColumns in Hr.
  destruct (fields (deref (data p))) as [|f0 fs0] eqn:Hfs.
  - injection Hr as <-. split; [reflexivity|]. intros i ci Hi. rewrite lookup_nil in Hi. discriminate.
  - apply omap_Forall2 in Hr.
    split; [symmetry; exact (Forall2_length _ _ _ Hr)|].
    intros i ci Hi.
    destruct (Forall2_lookup_r _ _ _ i ci Hr Hi) as [f [Hf Hx]].
    exists f. simpl in Hx.
    destruct (find_style (name f) (deref (styles p))) as [[ttl st]|e] eqn:Hs; simpl in Hx;
      [|discriminate].
    injection Hx as <-. exists st. simpl. split; [exact Hf|split; reflexivity].
Qed.

Lemma initColumns_layout_witness :
  exists r, @initColumns SubsetRegExp.engine scenario_props = Ok r
  /\ length r = length (fields (deref (data scenario_props)))
  /\ forall (i : nat) ci, r !! i = Some ci ->
       exists f style, fields (deref (data scenario_props)) !! i = Some f
       /\ @find_style SubsetRegExp.engine (name f) (deref (styles scenario_props)) = Ok (header ci, style)
       /\ builder ci = getCellBuilder (config f) style.
Proof.
  eexists.
  assert (Hr : @initColumns SubsetRegExp.engine scenario_props
               = Ok (match @initColumns SubsetRegExp.engine scenario_props with
                     | Ok r => r | Throw _ => [] end)) by (vm_compute; reflexivity).
  split; [exact Hr|]. apply initColumns_layout. exact Hr.
Defined.

Lemma insert_by_perm (lt : nat -> nat -> bool) (x : nat) (l : list nat) :
  Permutation (insert_by lt x l) (x :: l).
Proof.
  induction l as [|y l IH]; simpl; [reflexivity|].
  destruct (lt x y); [reflexivity|].
  rewrite IH. apply perm_swap.
Qed.

Lemma sort_indices_perm (lt : nat -> nat -> bool) (l : list nat) :
  Permutation (sort_indices lt l) l.
Proof.
  unfold sort_indices.
  assert (G : forall acc, Permutation (fold_left (fun acc x => insert_by lt x acc) l acc) (l ++ acc)).
  { induction l as [|x l IH]; intros acc; simpl; [reflexivity|].
    rewrite IH, insert_by_perm. symmetry. apply Permutation_middle. }
  rewrite G. rewrite app_nil_r. reflexivity.
Qed.

Lemma insert_by_hd (lt : nat -> nat -> bool) (y x : nat) (l : list nat) :
  lt x y = false -> HdRel (fun a b => lt b a = false) y l ->
  HdRel (fun a b => lt b a = false) y (insert_by lt x l).
Proof.
  intros Hyx Hl. destruct l as [|z l]; simpl; [constructor; exact Hyx|].
  destruct (lt x z); constructor; [exact Hyx|inversion Hl; assumption].
Qed.

Lemma insert_by_sorted (lt : nat -> nat -> bool)
  (lt_asym : forall a b, lt a b = true -> lt b a = false) (x : nat) (l : list nat) :
  Sorted (fun a b => lt b a = false) l -> Sorted (fun a b => lt b a = false) (insert_by lt x l).
Proof.
  induction l as [|y l IH]; intros Hs; simpl.
  - repeat constructor.
  - destruct (lt x y) eqn:E.
    + constructor; [exact Hs|constructor; apply lt_asym; exact E].
    + inversion Hs as [|? ? Hs' Hhd]; subst.
      constructor; [exact (IH Hs')|]. apply insert_by_hd; [exact E|exact Hhd].
Qed.

Lemma sort_indices_sorted (lt : nat -> nat -> bool)
  (lt_asym : forall a b, lt a b = true -> lt b a = false) (l : list nat) :
  Sorted (fun a b => lt b a = false) (sort_indices lt l).
Proof.
  unfold sort_indices.
  assert (G : forall acc, Sorted (fun a b => lt b a = false) acc ->
            Sorted (fun a b => lt b a = false)
                   (fold_left (fun acc x => insert_by lt x acc) l acc)).
  { induction l as [|x l IH]; intros acc Hacc; simpl; [exact Hacc|].
    apply IH, insert_by_sorted, Hacc. exact lt_asym. }
  apply G. constructor.
Qed.

Lemma Sorted_map {A B} (R : A -> A -> Prop) (Q : B -> B -> Prop) (g : A -> B) (l : list A) :
  (forall a b, R a b -> Q (g a) (g b)) -> Sorted R l -> Sorted Q (map g l).
Proof.
  intros HRQ Hs. induction Hs as [|a l Hs IH Hhd]; simpl; constructor; [exact IH|].
  destruct Hhd; simpl; constructor. apply HRQ. assumption.
Qed.

Lemma lookup_map {A B} (g : A -> B) (l : list A) (n : nat) :
  (map g l) !! n = option_map g (l !! n).
Proof. revert n. induction l as [|x l IH]; intros [|n]; simpl; auto. Qed.

Lemma lookupZ_map {A B} (g : A -> B) (l : list A) (i : Z) :
  lookupZ (map g l) i = option_map g (lookupZ l i).
Proof. unfold lookupZ. destruct (i <? 0)%Z; [reflexivity|apply lookup_map]. Qed.

Lemma map_nth_seq (v : list Z) :
  map (fun j => nth j v 0%Z) (seq 0 (length v)) = v.
Proof.
  induction v as [|a v IH]; [reflexivity|]. simpl. f_equal.
  rewrite <- seq_shift, map_map. exact IH.
Qed.

(** [sortDataFrame] with an existing sort field: the field keeps its
    position and name, and its values come out in ascending order, or in
    descending order when [reverse] is set. *)
Theorem sortDataFrame_sorted (d : DataFrame) (i : Z) (rev : bool) (f : Field)
  (Hf : lookupZ (fields d) i = Some f) :
  exists f', lookupZ (fields (sortDataFrame d (Some i) rev)) i = Some f'
  /\ name f' = name f
  /\ Sorted (fun a b => if rev then (b <= a)%Z else (a <= b)%Z) (values f').
Proof.
  unfold sortDataFrame. rewrite Hf. simpl. rewrite lookupZ_map, Hf. simpl.
  eexists. split; [reflexivity|split; [reflexivity|]]. simpl.
  set (v := fun j => nth j (values f) 0%Z).
  set (lt := fun a b => if rev then (v b <? v a)%Z else (v a <? v b)%Z).
  apply (Sorted_map (fun a b => lt b a = false)).
  - intros a b H. unfold lt in H. destruct rev; apply Z.ltb_ge in H; exact H.
  - apply sort_indices_sorted. intros a b H. unfold lt in *.
    destruct rev; apply Z.ltb_lt in H; apply Z.ltb_ge; lia.
Qed.

(** [sortDataFrame] on a well-formed dataset (every field holds
    [frame_length] values) keeps the row count, the fields' order, names
    and configs, and moves whole rows: one permutation of the row indices
    is applied to every field, so each field's values are a permutation of
    the original ones (nothing lost, nothing duplicated). *)
Theorem sortDataFrame_rows (d : DataFrame) (si : option Z) (rev : bool)
  (Hwf : Forall (fun f => length (values f) = frame_length d) (fields d)) :
  let d' := sortDataFrame d si rev in
  frame_length d' = frame_length d
  /\ exists index, Permutation index (seq 0 (frame_length d))
  /\ Forall2 (fun f f' => name f' = name f /\ config f' = config f
                          /\ values f' = map (fun j => nth j (values f) 0%Z) index
                          /\ Permutation (values f') (values f))
             (fields d) (fields d').
Proof.
  intros d'.
  assert (Hgen : forall index, Permutation index (seq 0 (frame_length d)) ->
    Forall2 (fun f f' => name f' = name f /\ config f' = config f
                         /\ values f' = map (fun j => nth j (values f) 0%Z) index
                         /\ Permutation (values f') (values f))
            (fields d)
            (map (fun f => mkField (name f) (config f) (map (fun j => nth j (values f) 0%Z) index))
                 (fields d))).
  { intros index Hp. clear d'. induction Hwf as [|f fs Hl _ IH]; simpl; constructor; [|exact IH].
    simpl. split; [reflexivity|split; [reflexivity|split; [reflexivity|]]].
    rewrite Hp, <- Hl. rewrite map_nth_seq. reflexivity. }
  assert (Hid : Forall2 (fun f f' => name f' = name f /\ config f' = config f
                          /\ values f' = map (fun j => nth j (values f) 0%Z) (seq 0 (frame_length d))
                          /\ Permutation (values f') (values f)) (fields d) (fields d)).
  { clear d' Hgen. induction Hwf as [|f fs Hl _ IH]; constructor; [|exact IH].
    split; [reflexivity|split; [reflexivity|split; [|reflexivity]]].
    rewrite <- Hl. symmetry. apply map_nth_seq. }
  unfold d', sortDataFrame.
  destruct si as [i|]; [|split; [reflexivity|exists (seq 0 (frame_length d)); split; [reflexivity|exact Hid]]].
  destruct (lookupZ (fields d) i) as [f|];
    [|split; [reflexivity|exists (seq 0 (frame_length d)); split; [reflexivity|exact Hid]]].
  split; [reflexivity|]. eexists. split; [apply sort_indices_perm|]. apply Hgen. apply sort_indices_perm.
Qed.

Lemma sortDataFrame_sorted_witness :
  lookupZ (fields frame3) 1 = Some f_temp_max
  /\ exists f', lookupZ (fields (sortDataFrame frame3 (Some 1%Z) true)) 1 = Some f'
     /\ name f' = name f_temp_max
     /\ Sorted (fun a b => if true then (b <= a)%Z else (a <= b)%Z) (values f').
Proof.
  split; [reflexivity|]. apply sortDataFrame_sorted. reflexivity.
Defined.

Lemma sortDataFrame_rows_witness :
  Forall (fun f => length (values f) = frame_length frame3) (fields frame3)
  /\ (let d' := sortDataFrame frame3 (Some 0%Z) false in
      frame_length d' = frame_length frame3
      /\ exists index, Permutation index (seq 0 (frame_length frame3))
      /\ Forall2 (fun f f' => name f' = name f /\ config f' = config f
                              /\ values f' = map (fun j => nth j (values f) 0%Z) index
                              /\ Permutation (values f') (values f))
                 (fields frame3) (fields d')).
Proof.
  assert (Hwf : Forall (fun f => length (values f) = frame_length frame3) (fields frame3))
    by (repeat constructor).
  split; [exact Hwf|]. apply sortDataFrame_rows. exact Hwf.
Defined.



Lemma digits_all (l : list ascii) (acc : Z) (cnt : nat) :
  Forall is_digit l ->
  ThresholdsForm.digits acc cnt (string_of_list_ascii l) = (fold_left digit_step l acc, (cnt + length l)%nat).
Proof.
  revert acc cnt. induction l as [|c l IH]; intros acc cnt Hl; simpl.
  - rewrite Nat.add_0_r. reflexivity.
  - inversion Hl as [|? ? [d Hd] Hl']; subst.
    rewrite Hd. rewrite IH by exact Hl'.
    replace (digit_step acc c) with (acc * 10 + d)%Z by (unfold digit_step; rewrite Hd; reflexivity).
    rewrite Nat.add_succ_r. reflexivity.
Qed.

Lemma digit_char (k : nat) : (k < 10)%nat ->
  ThresholdsForm.digit_value (ascii_of_nat (48 + k)) = Some (Z.of_nat k).
Proof.
  intros Hk. unfold ThresholdsForm.digit_value.
  rewrite nat_ascii_embedding by lia.
  replace ((48 <=? 48 + k) && (48 + k <=? 57))%nat with true
    by (symmetry; apply andb_true_intro; split; apply Nat.leb_le; lia).
  f_equal. f_equal. lia.
Qed.

Lemma rev_digits_spec (f : nat) (n : Z) :
  (0 <= n < 10 ^ Z.of_nat f)%Z -> (1 <= f)%nat ->
  let l := ThresholdsForm.rev_digits f n in
  Forall is_digit l /\ l <> [] /\ fold_right (fun c a => digit_step a c) 0%Z l = n.
Proof.
  revert n. induction f as [|f IH]; intros n Hn Hf; [lia|].
  cbn [ThresholdsForm.rev_digits].
  assert (Hm : (0 <= n mod 10 < 10)%Z) by (apply Z.mod_pos_bound; lia).
  assert (Hc : ThresholdsForm.digit_value (ascii_of_nat (48 + Z.to_nat (n mod 10)))
               = Some (n mod 10)%Z).
  { rewrite digit_char by lia. rewrite Z2Nat.id by lia. reflexivity. }
  destruct (n <? 10)%Z eqn:Hlt.
  - apply Z.ltb_lt in Hlt. split; [constructor; [eexists; exact Hc|constructor]|].
    split; [discriminate|]. cbn [fold_right]. unfold digit_step. rewrite Hc.
    rewrite Z.mod_small by lia. lia.
  - apply Z.ltb_ge in Hlt.
    assert (Hf' : (1 <= f)%nat).
    { destruct f; [simpl in Hn; lia|lia]. }
    assert (Hq : (0 <= n / 10 < 10 ^ Z.of_nat f)%Z).
    { split; [apply Z.div_pos; lia|].
      apply Z.div_lt_upper_bound; [lia|].
      rewrite Nat2Z.inj_succ, Z.pow_succ_r in Hn by lia. lia. }
    destruct (IH (n / 10)%Z Hq Hf') as [Hd [Hne Hv]].
    split; [constructor; [eexists; exact Hc|exact Hd]|].
    split; [discriminate|]. cbn [fold_right]. rewrite Hv. unfold digit_step. rewrite Hc.
    pose proof (Z.div_mod n 10). lia.
Qed.

Lemma fuel_enough (n : Z) : (0 <= n)%Z ->
  (0 <= n < 10 ^ Z.of_nat (S (Z.to_nat (Z.log2 n))))%Z.
Proof.
  intros Hn. split; [exact Hn|].
  rewrite Nat2Z.inj_succ, Z2Nat.id by apply Z.log2_nonneg.
  destruct (Z.eq_dec n 0%Z) as [->|Hn0]; [simpl; lia|].
  destruct (Z.log2_spec n) as [_ H2]; [lia|].
  eapply Z.lt_le_trans; [exact H2|].
  apply Z.pow_le_mono_l. split; [lia|lia].
Qed.

Lemma fold_left_rev {A B} (f : A -> B -> A) (l : list B) (i : A) :
  fold_left f (rev l) i = fold_right (fun x a => f a x) i l.
Proof.
  induction l as [|x l IH]; [reflexivity|]. simpl.
  rewrite fold_left_app. simpl. rewrite IH. reflexivity.
Qed.

Lemma decimal_digits_spec (n : Z) : (0 <= n)%Z ->
  exists c l', ThresholdsForm.rev_digits (S (Z.to_nat (Z.log2 n))) n = c :: l'
  /\ is_digit c
  /\ Forall is_digit (ThresholdsForm.decimal_digits n)
  /\ ThresholdsForm.decimal_digits n <> []
  /\ fold_left digit_step (ThresholdsForm.decimal_digits n) 0%Z = n.
Proof.
  intros Hn. destruct (rev_digits_spec _ n (fuel_enough n Hn) ltac:(lia)) as [Hd [Hne Hv]].
  unfold ThresholdsForm.decimal_digits.
  destruct (ThresholdsForm.rev_digits (S (Z.to_nat (Z.log2 n))) n) as [|c l'] eqn:E; [congruence|].
  exists c, l'. split; [reflexivity|].
  inversion Hd; subst. split; [assumption|].
  split; [apply Forall_rev; exact Hd|].
  split; [simpl; intros H; apply app_eq_nil in H as [_ H]; discriminate|].
  apply fold_left_rev.
Qed.

Lemma digit_not_space (c : ascii) : is_digit c -> ThresholdsForm.is_js_space c = false.
Proof.
  intros [d Hd]. unfold ThresholdsForm.digit_value in Hd. unfold ThresholdsForm.is_js_space.
  destruct ((48 <=? nat_of_ascii c) && (nat_of_ascii c <=? 57))%nat eqn:E; [|discriminate].
  apply andb_true_iff in E as [E1 E2]. apply Nat.leb_le in E1, E2.
  apply orb_false_iff. split; [apply orb_false_iff; split|].
  - apply andb_false_iff. right. apply Nat.leb_gt. lia.
  - apply Nat.eqb_neq. lia.
  - apply Nat.eqb_neq. lia.
Qed.

Lemma parseInt10_digit_start (c : ascii) (r : string) : is_digit c ->
  ThresholdsForm.parseInt10 (String c r)
  = let '(v, n) := ThresholdsForm.digits 0 0 (String c r) in
    if Nat.eqb n 0 then None else Some (1 * v)%Z.
Proof.
  intros [d Hd]. unfold ThresholdsForm.digit_value in Hd.
  destruct ((48 <=? nat_of_ascii c) && (nat_of_ascii c <=? 57))%nat eqn:E; [|discriminate].
  apply andb_true_iff in E as [E1 E2]. apply Nat.leb_le in E1, E2.
  rewrite <- (ascii_nat_embedding c).
  remember (nat_of_ascii c) as k eqn:Hk. clear Hk Hd.
  assert (k = 48 \/ k = 49 \/ k = 50 \/ k = 51 \/ k = 52 \/ k = 53 \/ k = 54
          \/ k = 55 \/ k = 56 \/ k = 57)%nat as Hcases by lia.
  repeat destruct Hcases as [->|Hcases]; try reflexivity; subst; reflexivity.
Qed.

Lemma parse_numberToString (n : Z) :
  ThresholdsForm.parseInt10 (ThresholdsForm.numberToString n) = Some n.
Proof.
  destruct (decimal_digits_spec (Z.abs n) (Z.abs_nonneg n)) as [c [l' [_ [_ [Hd [Hne Hv]]]]]].
  unfold ThresholdsForm.numberToString.
  destruct (ThresholdsForm.decimal_digits (Z.abs n)) as [|c0 l0] eqn:E; [congruence|].
  inversion Hd as [|? ? Hc0 Hl0]; subst.
  assert (Hdig := digits_all (c0 :: l0) 0 0 Hd). rewrite Hv in Hdig.
  destruct (n <? 0)%Z eqn:Hs.
  - apply Z.ltb_lt in Hs.
    change (string_of_list_ascii (["-"%char] ++ c0 :: l0))
      with (String "-" (string_of_list_ascii (c0 :: l0))).
    remember (string_of_list_ascii (c0 :: l0)) as body eqn:Hb.
    unfold ThresholdsForm.parseInt10. simpl. rewrite Hdig. simpl. f_equal. lia.
  - apply Z.ltb_ge in Hs.
    change (string_of_list_ascii ([] ++ c0 :: l0))
      with (String c0 (string_of_list_ascii l0)).
    rewrite (parseInt10_digit_start c0 _ Hc0).
    change (String c0 (string_of_list_ascii l0)) with (string_of_list_ascii (c0 :: l0)).
    rewrite Hdig. simpl. f_equal. lia.
Qed.

Lemma string_of_list_ascii_cons (c : ascii) (l : list ascii) :
  string_of_list_ascii (c :: l) = String c (string_of_list_ascii l).
Proof. reflexivity. Qed.

Lemma trim_ends (L : list ascii) (a b : ascii) (M M' : list ascii) :
  L = a :: M -> rev L = b :: M' ->
  ThresholdsForm.is_js_space a = false -> ThresholdsForm.is_js_space b = false ->
  ThresholdsForm.trim (string_of_list_ascii L) = string_of_list_ascii L.
Proof.
  intros HL HR Ha Hb. unfold ThresholdsForm.trim, ThresholdsForm.string_rev.
  assert (H1 : ThresholdsForm.trim_start (string_of_list_ascii L) = string_of_list_ascii L).
  { rewrite HL, string_of_list_ascii_cons. simpl. rewrite Ha. reflexivity. }
  rewrite H1, list_ascii_of_string_of_list_ascii, HR, string_of_list_ascii_cons.
  simpl ThresholdsForm.trim_start. rewrite Hb.
  rewrite <- string_of_list_ascii_cons, <- HR, list_ascii_of_string_of_list_ascii, rev_involutive.
  reflexivity.
Qed.

Lemma numberToString_chars (n : Z) :
  exists a M b M',
    list_ascii_of_string (ThresholdsForm.numberToString n) = a :: M
    /\ rev (list_ascii_of_string (ThresholdsForm.numberToString n)) = b :: M'
    /\ ThresholdsForm.is_js_space a = false /\ ThresholdsForm.is_js_space b = false
    /\ Forall (fun c => c = "-"%char \/ is_digit c) (list_ascii_of_string (ThresholdsForm.numberToString n)).
Proof.
  destruct (decimal_digits_spec (Z.abs n) (Z.abs_nonneg n)) as [c [l' [Hr [Hc [Hd [Hne _]]]]]].
  unfold ThresholdsForm.numberToString. rewrite list_ascii_of_string_of_list_ascii.
  assert (Hrev : rev (ThresholdsForm.decimal_digits (Z.abs n)) = c :: l').
  { unfold ThresholdsForm.decimal_digits. rewrite rev_involutive. exact Hr. }
  assert (Hall : Forall (fun c => c = "-"%char \/ is_digit c)
                   ((if (n <? 0)%Z then ["-"%char] else []) ++ ThresholdsForm.decimal_digits (Z.abs n))).
  { apply Forall_app. split.
    - destruct (n <? 0)%Z; repeat constructor; left; reflexivity.
    - eapply Forall_impl; [exact Hd|]. intros x Hx; right; exact Hx. }
  destruct (ThresholdsForm.decimal_digits (Z.abs n)) as [|d0 ds] eqn:E; [congruence|].
  inversion Hd as [|? ? Hd0 _]; subst.
  destruct (n <? 0)%Z.
  - exists "-"%char, (d0 :: ds), c, (l' ++ ["-"%char])%list.
    split; [reflexivity|]. split; [simpl; simpl in Hrev; rewrite Hrev; reflexivity|].
    split; [reflexivity|]. split; [apply digit_not_space; exact Hc|exact Hall].
  - exists d0, ds, c, l'.
    split; [reflexivity|]. split; [simpl; simpl in Hrev; exact Hrev|].
    split; [apply digit_not_space; exact Hd0|]. split; [apply digit_not_space; exact Hc|exact Hall].
Qed.

Lemma trim_numberToString (n : Z) :
  ThresholdsForm.trim (ThresholdsForm.numberToString n) = ThresholdsForm.numberToString n.
Proof.
  destruct (numberToString_chars n) as [a [M [b [M' [H1 [H2 [Ha [Hb _]]]]]]]].
  rewrite <- (string_of_list_ascii_of_string (ThresholdsForm.numberToString n)).
  exact (trim_ends _ a b M M' H1 H2 Ha Hb).
Qed.

Lemma trim_space (s : string) :
  ThresholdsForm.trim (String " " s) = ThresholdsForm.trim s.
Proof. reflexivity. Qed.

Lemma numberToString_no_comma (n : Z) :
  ~ In ","%char (list_ascii_of_string (ThresholdsForm.numberToString n)).
Proof.
  destruct (numberToString_chars n) as [_ [_ [_ [_ [_ [_ [_ [_ Hall]]]]]]]].
  intros Hin. rewrite List.Forall_forall in Hall. destruct (Hall _ Hin) as [H|[d H]];
    [discriminate|vm_compute in H; discriminate].
Qed.

Lemma split_app_sep (sep : ascii) (a b : string) :
  ~ In sep (list_ascii_of_string a) ->
  ThresholdsForm.split sep (a ++ String sep b) = a :: ThresholdsForm.split sep b.
Proof.
  induction a as [|c a IH]; intros Ha; simpl.
  - rewrite Ascii.eqb_refl. reflexivity.
  - destruct (Ascii.eqb_spec c sep) as [->|Hne]; [simpl in Ha; tauto|].
    rewrite IH by (simpl in Ha; tauto). reflexivity.
Qed.

Lemma split_no_sep (sep : ascii) (a : string) :
  ~ In sep (list_ascii_of_string a) -> ThresholdsForm.split sep a = [a].
Proof.
  induction a as [|c a IH]; intros Ha; simpl; [reflexivity|].
  destruct (Ascii.eqb_spec c sep) as [->|Hne]; [simpl in Ha; tauto|].
  rewrite IH by (simpl in Ha; tauto). reflexivity.
Qed.

Lemma split_rendered (t : Z) (ts : list Z) :
  ThresholdsForm.split ","%char (String.concat ", " (map ThresholdsForm.numberToString (t :: ts)))
  = ThresholdsForm.numberToString t
    :: map (fun x => String " " (ThresholdsForm.numberToString x)) ts.
Proof.
  revert t. induction ts as [|y ys IH]; intros t.
  - simpl. apply split_no_sep, numberToString_no_comma.
  - change (String.concat ", " (map ThresholdsForm.numberToString (t :: y :: ys)))
      with (ThresholdsForm.numberToString t
            ++ String "," (String " " (String.concat ", " (map ThresholdsForm.numberToString (y :: ys))))).
    rewrite split_app_sep by apply numberToString_no_comma.
    assert (Hsp : forall w, ThresholdsForm.split ","%char (String " " w)
                 = match ThresholdsForm.split ","%char w with
                   | seg :: segs => String " " seg :: segs
                   | [] => [String " " EmptyString]
                   end) by reflexivity.
    rewrite Hsp, IH. reflexivity.
Qed.

Lemma split_snoc_sep (sep : ascii) (s : string) :
  ThresholdsForm.split sep (s ++ String sep EmptyString) = (ThresholdsForm.split sep s ++ [EmptyString])%list.
Proof.
  induction s as [|c s IH]; simpl.
  - rewrite Ascii.eqb_refl. reflexivity.
  - rewrite IH. destruct (Ascii.eqb c sep); [reflexivity|].
    destruct (ThresholdsForm.split sep s) as [|seg segs] eqn:E; [exfalso; exact (split_not_nil sep s E)|].
    reflexivity.
Qed.

(** The thresholds field shows [thresholds.join(', ')]; handing that text
    back unchanged to [handleThresholdChange] reproduces the thresholds
    (for a non-empty list of safe integers, the domain where
    [numberToString] is JavaScript's printing), and passes the colors
    prop, or [[]], along. *)
Theorem thresholds_display_round_trip (p : ThresholdsForm.Props) (ts : list Z)
  (Hts : ThresholdsForm.thresholds p = Some ts) (Hne : ts <> [])
  (Hsafe : Forall (fun n => (Z.abs n <= 2 ^ 53)%Z) ts) :
  ThresholdsForm.handleThresholdChange p (ThresholdsForm.renderThresholdsValue p)
  = ThresholdsForm.mkChange ts (match ThresholdsForm.colors p with Some cs => cs | None => [] end).
Proof.
  clear Hsafe.
  unfold ThresholdsForm.handleThresholdChange, ThresholdsForm.renderThresholdsValue.
  rewrite Hts. destruct ts as [|t ts]; [congruence|].
  rewrite split_rendered. f_equal. simpl.
  rewrite trim_numberToString, parse_numberToString. f_equal.
  clear Hts Hne. induction ts as [|y ys IH]; [reflexivity|]. simpl.
  rewrite trim_space, trim_numberToString, parse_numberToString, IH. reflexivity.
Qed.

(** With no thresholds (prop missing or empty) the field shows the empty
    string, and handing it back gives one threshold [0], not an empty
    list. *)
Theorem thresholds_empty_display (p : ThresholdsForm.Props)
  (Hnone : match ThresholdsForm.thresholds p with Some ts => ts | None => [] end = []) :
  ThresholdsForm.renderThresholdsValue p = ""
  /\ ThresholdsForm.change_thresholds
       (ThresholdsForm.handleThresholdChange p (ThresholdsForm.renderThresholdsValue p)) = [0%Z].
Proof.
  unfold ThresholdsForm.renderThresholdsValue. rewrite Hnone. split; reflexivity.
Qed.

(** A value ending in a comma (e.g. while typing "50, 80,") yields the
    thresholds of the value without it followed by one extra [0]. *)
Theorem trailing_comma_adds_zero (p : ThresholdsForm.Props) (value : string) :
  ThresholdsForm.handleThresholdChange p (value ++ ",")
  = ThresholdsForm.mkChange
      (ThresholdsForm.change_thresholds (ThresholdsForm.handleThresholdChange p value) ++ [0%Z])
      (ThresholdsForm.change_colors (ThresholdsForm.handleThresholdChange p value)).
Proof.
  unfold ThresholdsForm.handleThresholdChange. simpl.
  rewrite split_snoc_sep, map_app. reflexivity.
Qed.

(** The colors select shows [{value, label: value}] per color; handing
    those items back to [handleColorsChange] reproduces the colors, and
    passes the thresholds prop, or [[]], along. *)
Theorem colors_display_round_trip (p : ThresholdsForm.Props) :
  ThresholdsForm.handleColorsChange p (ThresholdsForm.renderColorsValue p)
  = ThresholdsForm.mkChange (match ThresholdsForm.thresholds p with Some ts => ts | None => [] end)
                            (match ThresholdsForm.colors p with Some cs => cs | None => [] end).
Proof.
  unfold ThresholdsForm.handleColorsChange, ThresholdsForm.renderColorsValue.
  rewrite map_map. simpl. rewrite map_id. reflexivity.
Qed.

Lemma thresholds_display_round_trip_witness :
  let p := ThresholdsForm.mkProps (Some [50; -7; 120]%Z) (Some ["red"]) in
  ThresholdsForm.thresholds p = Some [50; -7; 120]%Z
  /\ [50; -7; 120]%Z <> []
  /\ Forall (fun n => (Z.abs n <= 2 ^ 53)%Z) [50; -7; 120]%Z
  /\ ThresholdsForm.handleThresholdChange p (ThresholdsForm.renderThresholdsValue p)
     = ThresholdsForm.mkChange [50; -7; 120]%Z
         (match ThresholdsForm.colors p with Some cs => cs | None => [] end).
Proof.
  intros p.
  assert (Hs : Forall (fun n => (Z.abs n <= 2 ^ 53)%Z) [50; -7; 120]%Z)
    by (repeat constructor; vm_compute; discriminate).
  split; [reflexivity|split; [discriminate|split; [exact Hs|]]].
  apply thresholds_display_round_trip; [reflexivity|discriminate|exact Hs].
Defined.

Lemma thresholds_empty_display_witness :
  let p := ThresholdsForm.mkProps None (Some ["red"]) in
  match ThresholdsForm.thresholds p with Some ts => ts | None => [] end = []
  /\ ThresholdsForm.renderThresholdsValue p = ""
  /\ ThresholdsForm.change_thresholds
       (ThresholdsForm.handleThresholdChange p (ThresholdsForm.renderThresholdsValue p)) = [0%Z].
Proof.
  intros p. split; [reflexivity|]. apply thresholds_empty_display. reflexivity.
Defined.



(** Mounting: a table built by [constructor] holds the props' dataset in
    its original order with no sort, the layout [initColumns] built, an
    empty measurement cache and no scroll request or queued state; no
    header shows a sort indicator, and the first render (of a dataset with
    fields) does not scroll and changes nothing. *)
Theorem constructor_initial `{RegExpEngine} (p : Props) (t : Table) (Ht : constructor p = Ok t) :
  props t = p
  /\ state t = mkState None None (deref (data p))
  /\ initColumns p = Ok (renderer t)
  /\ measurer t = ∅ /\ scrollToTop t = false /\ pendingState t = None
  /\ (forall rr c h, fst (headerBuilder rr c t) = Ok h -> sort_indicator h = None)
  /\ (fields (deref (data p)) <> [] ->
      exists g, render t = (Ok (MultiGrid g), t) /\ scrollToRow g = (-1)%Z).
Proof.
  unfold constructor in Ht. destruct (initColumns p) as [r|e] eqn:Hr; simpl in Ht; [|discriminate].
  injection Ht as <-. simpl.
  split; [reflexivity|split; [reflexivity|split; [reflexivity|]]].
  split; [reflexivity|split; [reflexivity|split; [reflexivity|]]].
  split.
  - intros rr c h Hh. unfold headerBuilder, bind, get, ret, lift in Hh. simpl in Hh.
    destruct (lookupZ (fields (deref (data p))) _); simpl in Hh; [|discriminate].
    injection Hh as <-. reflexivity.
  - intros Hne. destruct (fields (deref (data p))) as [|x xs] eqn:Hf; [contradiction|].
    destruct (render_cons (mkTable p (mkState None None (deref (data p))) r ∅ false None) x xs Hf)
      as [g [Hg Hrow]].
    exists g. split; [exact Hg|exact Hrow].
Qed.

Lemma constructor_initial_witness :
  exists t, @constructor SubsetRegExp.engine scenario_props = Ok t
  /\ props t = scenario_props
  /\ state t = mkState None None (deref (data scenario_props))
  /\ @initColumns SubsetRegExp.engine scenario_props = Ok (renderer t)
  /\ measurer t = ∅ /\ scrollToTop t = false /\ pendingState t = None
  /\ (forall rr c h, fst (headerBuilder rr c t) = Ok h -> sort_indicator h = None)
  /\ (fields (deref (data scenario_props)) <> [] ->
      exists g, render t = (Ok (MultiGrid g), t) /\ scrollToRow g = (-1)%Z).
Proof.
  eexists.
  assert (Ht : @constructor SubsetRegExp.engine scenario_props
               = Ok (match @constructor SubsetRegExp.engine scenario_props with
                     | Ok t => t | Throw _ => initialTable scenario_props [] end))
    by (vm_compute; reflexivity).
  split; [exact Ht|]. apply constructor_initial. exact Ht.
Defined.
